(** * The INEGI geostatistical framework migration

    A shallow embedding of
    [irekua_marco_geoestadistico/migrations/migrate_geostatistical_framework.py]
    and the properties of its containment hierarchy, metadata schemas and
    failure behaviour.

    The Python module is sequential code that mutates three kinds of state: the
    file system (the extraction directory), the database (the [LocalityType]
    and [Locality] tables and the [is_part_of] many-to-many relation) and the
    module-level [BASIC_SCHEMA] dictionary.  It is embedded as a state monad
    whose state survives an exception, because nothing in the module rolls a
    write back. *)

From stdpp Require Import base option list strings gmap.

(** ** Values of the external libraries *)

(** Exceptions the module lets escape. *)
Inductive exception :=
  | KeyError (key : string)
  | IndexError (field : string)
  | GDALException
  | AttributeError
  | TypeError
  | DoesNotExist
  | FileNotFoundError (path : string).

#[local] Set Warnings "-register-all".

(** JSON documents, as [json.dumps] receives them.  An object keeps the
    insertion order of its keys, like a Python [dict]. *)
Inductive json :=
  | JString (s : string)
  | JArray (items : list json)
  | JObject (members : list (string * json)).

(** [d[k] = v] on an insertion-ordered dictionary: an existing key keeps its
    place and takes the new value, a new key goes last. *)
Fixpoint dict_set {V} (k : string) (v : V) (d : list (string * V)) : list (string * V) :=
  match d with
  | [] => [(k, v)]
  | (k', v') :: d' =>
      if String.eqb k' k then (k, v) :: d' else (k', v') :: dict_set k v d'
  end.

(** [d[k]] on the same dictionaries. *)
Fixpoint dict_get {V} (k : string) (d : list (string * V)) : option V :=
  match d with
  | [] => None
  | (k', v) :: d' => if String.eqb k' k then Some v else dict_get k d'
  end.

Definition dict_keys {V} (d : list (string * V)) : list string := d.*1.

(** [str.lower()] on the ASCII letters, which is all the names of the OGR
    geometry types are made of. *)
Definition lower_ascii (c : Ascii.ascii) : Ascii.ascii :=
  let n := Ascii.nat_of_ascii c in
  if (65 <=? n) && (n <=? 90) then Ascii.ascii_of_nat (n + 32) else c.

Fixpoint lower (s : string) : string :=
  match s with
  | EmptyString => EmptyString
  | String c s' => String (lower_ascii c) (lower s')
  end.

(** [OGRGeomType.__eq__] against a string: an OGR geometry type, given by
    its name (Point, Polygon, MultiPolygon, Polygon25D, ...), equals a string
    when the two agree up to case. *)
Definition OGRGeomType_eq (name other : string) : bool :=
  String.eqb (lower name) (lower other).

Record date := { year : nat; month : nat; day : nat }.

(** A row of [irekua_database.LocalityType].  [metadata_schema] holds the
    document that [json.dumps] serialises when the row is created. *)
Record LocalityType := {
  type_pk : nat;
  metadata_schema : json;
  type_name : string;
  publication_date : date;
  source : string;
  description : string;
  original_datum : string
}.

(** ** Module constants *)

Definition INEGI_DESCRIPTION : string :=
"El Marco Geoestadístico (MG) Integrado se conforma por información vectorial, tablas de atributos y catálogos.
Muestra la división geoestadística del territorio nacional en sucesivos niveles de desagregación. Esta división está dada por los llamados LÍMITES GEOESTADÍSTICOS, que pueden coincidir con los límites político-administrativos oficiales, los cuales tienen sustento legal; sin embargo, los que no cuentan con dicho sustento deben entenderse como límites provisionales, trazados sólo para realizar los operativos censales. Estos límites provisionales no tienen pretensión de oficialidad, dado que el Instituto Nacional de Estadística y Geografía no es el órgano facultado para definir límites político-administrativos.
El MG contiene además la cobertura de todas las localidades del territorio nacional, de manera que a cada una de las viviendas le corresponde una secuencia de claves de identificación geográfica que está dada por los sucesivos niveles de desagregación en los que se divide el territorio nacional.
".

(** The values a [BASIC_SCHEMA] key can hold: an immutable string, or a
    reference to one of the two mutable containers built by the module-level
    literal.  [BASIC_SCHEMA.copy()] copies the references, not the containers. *)
Inductive pyvalue :=
  | PyStr (s : string)
  | PyRequiredList
  | PyPropertiesDict.

Definition BASIC_SCHEMA : list (string * pyvalue) :=
  [ ("$schema", PyStr "http://json-schema.org/draft-07/schema#");
    ("type", PyStr "object");
    ("title", PyStr "INEGI Marco Geoestadístico 2018");
    ("required", PyRequiredList);
    ("properties", PyPropertiesDict) ].

(** The three migrator classes with their class attributes. *)
Inductive migrator := EntityMigrator | MunicipalityMigrator | LocalityMigrator.

Definition name_of (self : migrator) : string :=
  match self with
  | EntityMigrator => "Entidad"
  | MunicipalityMigrator => "Municipio"
  | LocalityMigrator => "Localidad"
  end.

Definition file_name (self : migrator) : string :=
  match self with
  | EntityMigrator => "01_32_ent.shp"
  | MunicipalityMigrator => "01_32_mun.shp"
  | LocalityMigrator => "01_32_l.shp"
  end.

Definition attributes (self : migrator) : list (string * string) :=
  match self with
  | EntityMigrator =>
      [ ("CVEGEO", "Clave de geometria");
        ("CVE_ENT", "Clave de entidad") ]
  | MunicipalityMigrator =>
      [ ("CVEGEO", "Clave de geometria");
        ("CVE_ENT", "Clave de entidad");
        ("CVE_MUN", "Clave de municipio") ]
  | LocalityMigrator =>
      [ ("CVEGEO", "Clave de geometria");
        ("CVE_ENT", "Clave de entidad");
        ("CVE_MUN", "Clave de municipio");
        ("CVE_LOC", "Clave de localidad") ]
  end.

Section Migration.

(** Coordinates and their reprojection belong to GDAL.  [CoordTransform src
    dst] reprojects one coordinate and may fail; [geometry_srid] is the SRID
    declared by the [geometry] column of [irekua_database.Locality]. *)
Context {coord : Type}.
Variable CoordTransform : string -> string -> coord -> option coord.
Variable geometry_srid : nat.

Inductive OGRGeometry :=
  | Point (c : coord)
  | LineString (cs : list coord)
  | Polygon (rings : list (list coord))
  | MultiPolygon (polygons : list (list (list coord))).

(** A shapefile feature: its geometry, its attribute table row, and
    [geom_type], the name of the geometry type that the definition of its
    layer declares.  [Feature.geom_type] reads the layer definition, not the
    geometry: in a shapefile of polygons it is Polygon for the features of one
    part and of several parts alike, and Polygon25D when the shapes carry a
    third coordinate. *)
Record Feature := {
  geom_type : string;
  geom : OGRGeometry;
  fields : gmap string string
}.

(** A layer: its declared spatial reference (as WKT, [None] when the
    shapefile declares none) and its features in file order. *)
Record Layer := { srs : option string; features : list Feature }.

(** A row of [irekua_database.Locality].  [geometry] holds the geometry
    whose WKT text is stored. *)
Record Locality := {
  pk : nat;
  name : string;
  geometry : OGRGeometry;
  locality_type : LocalityType;
  metadata : gmap string string
}.

(** ** The state the module reads and writes *)

Record world := {
  target_dir : option (gmap string Layer);
  data_dir : gmap string (gmap string Layer);
  spatial_ref_sys : gmap nat string;
  schema_required : list string;
  schema_properties : list (string * json);
  locality_types : list LocalityType;
  localities : list Locality;
  is_part_of : gmap nat (gset nat);
  log : list string
}.

Definition set_target_dir (d : option (gmap string Layer)) (w : world) : world :=
  {| target_dir := d; data_dir := data_dir w; spatial_ref_sys := spatial_ref_sys w;
     schema_required := schema_required w; schema_properties := schema_properties w;
     locality_types := locality_types w; localities := localities w;
     is_part_of := is_part_of w; log := log w |}.

Definition set_schema (r : list string) (p : list (string * json)) (w : world) : world :=
  {| target_dir := target_dir w; data_dir := data_dir w; spatial_ref_sys := spatial_ref_sys w;
     schema_required := r; schema_properties := p;
     locality_types := locality_types w; localities := localities w;
     is_part_of := is_part_of w; log := log w |}.

Definition set_locality_types (ts : list LocalityType) (w : world) : world :=
  {| target_dir := target_dir w; data_dir := data_dir w; spatial_ref_sys := spatial_ref_sys w;
     schema_required := schema_required w; schema_properties := schema_properties w;
     locality_types := ts; localities := localities w;
     is_part_of := is_part_of w; log := log w |}.

Definition set_localities (ls : list Locality) (w : world) : world :=
  {| target_dir := target_dir w; data_dir := data_dir w; spatial_ref_sys := spatial_ref_sys w;
     schema_required := schema_required w; schema_properties := schema_properties w;
     locality_types := locality_types w; localities := ls;
     is_part_of := is_part_of w; log := log w |}.

Definition set_is_part_of (r : gmap nat (gset nat)) (w : world) : world :=
  {| target_dir := target_dir w; data_dir := data_dir w; spatial_ref_sys := spatial_ref_sys w;
     schema_required := schema_required w; schema_properties := schema_properties w;
     locality_types := locality_types w; localities := localities w;
     is_part_of := r; log := log w |}.

Definition set_log (l : list string) (w : world) : world :=
  {| target_dir := target_dir w; data_dir := data_dir w; spatial_ref_sys := spatial_ref_sys w;
     schema_required := schema_required w; schema_properties := schema_properties w;
     locality_types := locality_types w; localities := localities w;
     is_part_of := is_part_of w; log := l |}.

(** ** The monad: state that survives an exception *)

Inductive result (A : Type) :=
  | Ok (a : A)
  | Raise (e : exception).
Global Arguments Ok {A} a.
Global Arguments Raise {A} e.

Definition M (A : Type) : Type := world -> result A * world.

Definition ret {A} (a : A) : M A := fun w => (Ok a, w).

Definition bind {A B} (m : M A) (f : A -> M B) : M B :=
  fun w =>
    match m w with
    | (Ok a, w') => f a w'
    | (Raise e, w') => (Raise e, w')
    end.

Definition raise {A} (e : exception) : M A := fun w => (Raise e, w).

Definition get_world : M world := fun w => (Ok w, w).

Definition modify (f : world -> world) : M unit := fun w => (Ok tt, f w).

#[global] Instance M_ret : MRet M := @ret.
#[global] Instance M_bind : MBind M := fun A B f m => bind m f.

(** [d[k]] where a missing key raises. *)
Definition or_raise {A} (e : exception) (o : option A) : M A :=
  match o with
  | Some a => ret a
  | None => raise e
  end.

(** A [for] loop over a list that threads the loop-carried value. *)
Fixpoint for_each {A S} (body : S -> A -> M S) (s : S) (l : list A) : M S :=
  match l with
  | [] => ret s
  | x :: l' => s' ← body s x; for_each body s' l'
  end.

Definition logging_info (msg : string) : M unit :=
  modify (fun w => set_log (log w ++ [msg]) w).

(** ** Archive unpacker *)

Definition data_is_unpacked : M bool :=
  w ← get_world;
  ret (match target_dir w with Some _ => true | None => false end).

(** [zipfile.ZipFile(zip_file, 'r')]: the archive [data/<basename>]. *)
Definition ZipFile (basename : string) : M (gmap string Layer) :=
  w ← get_world;
  or_raise (FileNotFoundError ("data/" +:+ basename)) (data_dir w !! basename).

(** [zfile.extractall(TARGET_DIR)] creates the directory when needed and
    overwrites the files the archive names. *)
Definition extractall (zfile : gmap string Layer) : M unit :=
  modify (fun w => set_target_dir (Some (zfile ∪ default ∅ (target_dir w))) w).

Definition unpack_data : M unit :=
  _ ← logging_info "Extracting zip file with geostatistical framework";
  _ ← for_each (fun _ basename => zfile ← ZipFile basename; extractall zfile)
        tt ["l.zip"; "mun.zip"; "ent.zip"];
  logging_info "Extraction done".

(** ** Type registrar *)

(** [schema[key]] on the copied template. *)
Definition getitem (schema : list (string * pyvalue)) (key : string) : M pyvalue :=
  or_raise (KeyError key) (dict_get key schema).

(** [a + ' ' + v] for a string [a]. *)
Definition str_concat (a : string) (v : pyvalue) : M string :=
  match v with
  | PyStr s => ret (a +:+ " " +:+ s)
  | _ => raise TypeError
  end.

(** [target.append(x)]: the list behind the reference grows in place. *)
Definition append (target : pyvalue) (x : string) : M unit :=
  match target with
  | PyRequiredList =>
      modify (fun w => set_schema (schema_required w ++ [x]) (schema_properties w) w)
  | _ => raise AttributeError
  end.

(** [target[k] = v]: the dictionary behind the reference changes in place. *)
Definition setitem (target : pyvalue) (k : string) (v : json) : M unit :=
  match target with
  | PyPropertiesDict =>
      modify (fun w => set_schema (schema_required w) (dict_set k v (schema_properties w)) w)
  | _ => raise TypeError
  end.

(** [json.dumps] reads the containers behind the references when it is
    called. *)
Definition deref (w : world) (v : pyvalue) : json :=
  match v with
  | PyStr s => JString s
  | PyRequiredList => JArray (JString <$> schema_required w)
  | PyPropertiesDict => JObject (schema_properties w)
  end.

Definition json_dumps (schema : list (string * pyvalue)) : M json :=
  w ← get_world;
  ret (JObject (prod_map id (deref w) <$> schema)).

Definition create_metadata_schema (self : migrator) : M json :=
  let schema := BASIC_SCHEMA in
  old_title ← getitem schema "title";
  title ← str_concat (name_of self) old_title;
  let schema := dict_set "title" (PyStr title) schema in
  _ ← for_each (fun _ '(name, title) =>
         required ← getitem schema "required";
         _ ← append required name;
         properties ← getitem schema "properties";
         setitem properties name
           (JObject [("type", JString "integer"); ("title", JString title)]))
       tt (attributes self);
  json_dumps schema.

(** Modelled from the spec: the model class [LocalityType] and its table
    are declared by [irekua_database] (migration 0008_locality_localitytype),
    which is not under src/.  The specification gives a row its six fields and
    no constraint, has the persistence layer [create record], and has every
    run create its type rows anew; so
    [self.locality_type_model.objects.create(...)] appends the row under the
    next primary key, whatever rows are there. *)
Definition LocalityType_create (metadata_schema : json) (name : string)
    (publication_date : date) (source description original_datum : string)
    : M LocalityType :=
  w ← get_world;
  let row := {| type_pk := S (length (locality_types w));
                metadata_schema := metadata_schema;
                type_name := name;
                publication_date := publication_date;
                source := source;
                description := description;
                original_datum := original_datum |} in
  _ ← modify (set_locality_types (locality_types w ++ [row]));
  ret row.

Definition create_type (self : migrator) (layer : Layer) : M LocalityType :=
  metadata_schema ← create_metadata_schema self;
  let name := "MARCO GEOESTADÍSTICO INTEGRADO, DICIEMBRE  2018 (" +:+ name_of self +:+ ")" in
  let publication_date := {| year := 2018; month := 12; day := 1 |} in
  let source := "https://www.inegi.org.mx/temas/mg/default.html" in
  original_datum ← or_raise AttributeError (srs layer);
  LocalityType_create metadata_schema name publication_date source
    INEGI_DESCRIPTION original_datum.

(** ** Feature migrator *)

(** [feature.get(field)]: GDAL raises [IndexError] for an unknown field. *)
Definition feature_get (feature : Feature) (field : string) : M string :=
  or_raise (IndexError field) (fields feature !! field).

(** [container.add(g)]: a multi-polygon container takes a polygon as one
    more part and a multi-polygon part by part; OGR refuses any other
    geometry.  Only collections have the method. *)
Definition add (container g : OGRGeometry) : M OGRGeometry :=
  match container, g with
  | MultiPolygon ps, Polygon p => ret (MultiPolygon (ps ++ [p]))
  | MultiPolygon ps, MultiPolygon qs => ret (MultiPolygon (ps ++ qs))
  | MultiPolygon _, _ => raise GDALException
  | _, _ => raise AttributeError
  end.

(** Reprojection visits every coordinate and keeps the shape. *)
Definition reproject (ct : coord -> option coord) (g : OGRGeometry) : option OGRGeometry :=
  match g with
  | Point c => Point <$> ct c
  | LineString cs => LineString <$> mapM ct cs
  | Polygon rings => Polygon <$> mapM (mapM ct) rings
  | MultiPolygon ps => MultiPolygon <$> mapM (mapM (mapM ct)) ps
  end.

(** [geometry.transform(self.transform)] *)
Definition transform (ct : coord -> option coord) (g : OGRGeometry) : M OGRGeometry :=
  or_raise GDALException (reproject ct g).

Definition get_feature_metadata (self : migrator) (feature : Feature)
    : M (gmap string string) :=
  for_each (fun (d : gmap string string) '(field, _) =>
              v ← feature_get feature field;
              ret (<[field := v]> d))
    ∅ (attributes self).

(** Modelled from the spec: the model class [Locality] and its table are
    declared by [irekua_database], which is not under src/.  The specification
    has one row created per feature, with no constraint on it; so
    [self.locality_model.objects.create(...)] appends the row: it takes the
    next primary key and has no [is_part_of] rows yet. *)
Definition Locality_create (name : string) (geometry : OGRGeometry)
    (locality_type : LocalityType) (metadata : gmap string string) : M Locality :=
  w ← get_world;
  let row := {| pk := S (length (localities w));
                name := name;
                geometry := geometry;
                locality_type := locality_type;
                metadata := metadata |} in
  _ ← modify (set_localities (localities w ++ [row]));
  ret row.

(** [locality.is_part_of.add(parent, ...)]: the relation is a set, so a
    parent that is already related is not added twice. *)
Definition is_part_of_add (locality : Locality) (parents : list Locality) : M unit :=
  modify (fun w =>
    set_is_part_of
      (<[pk locality := default ∅ (is_part_of w !! pk locality) ∪ list_to_set (pk <$> parents)]>
         (is_part_of w)) w).

(** ** Hierarchy linker *)

(** [self.stores[key]]; [stores] is [None] unless the constructor got one. *)
Definition stores_getitem (stores : option (gmap string (gmap string Locality)))
    (key : string) : M (gmap string Locality) :=
  match stores with
  | None => raise TypeError
  | Some d => or_raise (KeyError key) (d !! key)
  end.

(** The method of each subclass.  It returns [self.localities]. *)
Definition create_locality_implications (self : migrator)
    (stores : option (gmap string (gmap string Locality)))
    (self_localities : gmap string Locality)
    (feature : Feature) (locality : Locality) : M (gmap string Locality) :=
  match self with
  | EntityMigrator =>
      code ← feature_get feature "CVE_ENT";
      ret (<[code := locality]> self_localities)
  | MunicipalityMigrator =>
      entities ← stores_getitem stores "entities";
      code ← feature_get feature "CVE_ENT";
      entity ← or_raise (KeyError code) (entities !! code);
      _ ← is_part_of_add locality [entity];
      code ← feature_get feature "CVE_MUN";
      ret (<[code := locality]> self_localities)
  | LocalityMigrator =>
      entities ← stores_getitem stores "entities";
      code ← feature_get feature "CVE_ENT";
      entity ← or_raise (KeyError code) (entities !! code);
      municipalities ← stores_getitem stores "municipalities";
      code ← feature_get feature "CVE_MUN";
      municipality ← or_raise (KeyError code) (municipalities !! code);
      _ ← is_part_of_add locality [entity; municipality];
      ret self_localities
  end.

Definition create_locality_from_feature (self : migrator)
    (stores : option (gmap string (gmap string Locality)))
    (locality_type : LocalityType) (ct : coord -> option coord)
    (self_localities : gmap string Locality) (feature : Feature)
    : M (gmap string Locality) :=
  name ← feature_get feature "NOMGEO";
  geometry ←
    (if OGRGeomType_eq (geom_type feature) "Polygon"
     then add (MultiPolygon []) (geom feature)
     else ret (geom feature));
  geometry ← transform ct geometry;
  metadata ← get_feature_metadata self feature;
  locality ← Locality_create name geometry locality_type metadata;
  create_locality_implications self stores self_localities feature locality.

(** [DataSource(shape_file)[0]] for a file of the extraction directory. *)
Definition DataSource (file : string) : M Layer :=
  w ← get_world;
  dir ← or_raise GDALException (target_dir w);
  or_raise GDALException (dir !! file).

Definition get_transform (layer : Layer) : M (coord -> option coord) :=
  let source_srs := srs layer in
  let target_srid := geometry_srid in
  w ← get_world;
  target_srs ← or_raise DoesNotExist (spatial_ref_sys w !! target_srid);
  source_srs ← or_raise TypeError source_srs;
  ret (CoordTransform source_srs target_srs).

(** [migrate] of a migrator built with [stores]; the result is the
    [localities] dictionary of the instance when the pass is over. *)
Definition migrate (self : migrator)
    (stores : option (gmap string (gmap string Locality)))
    : M (gmap string Locality) :=
  _ ← logging_info ("Migrating " +:+ name_of self);
  layer ← DataSource (file_name self);
  locality_type ← create_type self layer;
  ct ← get_transform layer;
  self_localities ←
    for_each (create_locality_from_feature self stores locality_type ct)
      ∅ (features layer);
  _ ← logging_info ("Done migrating " +:+ name_of self);
  ret self_localities.

Definition migrate_geostatistical_framework : M unit :=
  unpacked ← data_is_unpacked;
  _ ← (if negb unpacked then unpack_data else ret tt);
  entities ← migrate EntityMigrator None;
  let stores : gmap string (gmap string Locality) := {["entities" := entities]} in
  municipalities ← migrate MunicipalityMigrator (Some stores);
  let stores := <["municipalities" := municipalities]> stores in
  _ ← migrate LocalityMigrator (Some stores);
  ret tt.

(** ** Vocabulary of the specification *)

(** The containment set of the row with primary key [k]. *)
Definition containment (w : world) (k : nat) : gset nat :=
  default ∅ (is_part_of w !! k).

(** Only existing rows have [is_part_of] rows. *)
Definition db_consistent (w : world) : Prop :=
  forall k, length (localities w) < k -> is_part_of w !! k = None.

(** The geometry a feature is reprojected from.  In a layer that declares
    Polygon a polygon is wrapped and a multi-polygon is taken part by part,
    and nothing else is accepted; in a layer of another type the geometry is
    taken as it is. *)
Definition normalise (f : Feature) : option OGRGeometry :=
  if OGRGeomType_eq (geom_type f) "Polygon"
  then match geom f with
       | Polygon rings => Some (MultiPolygon [rings])
       | MultiPolygon polygons => Some (MultiPolygon polygons)
       | _ => None
       end
  else Some (geom f).

(** The metadata dictionary built from the attribute list, starting from [d]. *)
Fixpoint metadata_from (f : Feature) (d : gmap string string)
    (attrs : list (string * string)) : option (gmap string string) :=
  match attrs with
  | [] => Some d
  | (field, _) :: attrs' =>
      match fields f !! field with
      | Some v => metadata_from f (<[field := v]> d) attrs'
      | None => None
      end
  end.

(** A feature the migrator can read up to the point where it is stored. *)
Definition readable (self : migrator) (ct : coord -> option coord) (f : Feature) : Prop :=
  is_Some (fields f !! "NOMGEO") /\
  is_Some (normalise f ≫= reproject ct) /\
  is_Some (metadata_from f ∅ (attributes self)).

(** [row] is what a migrator of class [self] stores for feature [f]. *)
Definition created_from (self : migrator) (lt : LocalityType)
    (ct : coord -> option coord) (f : Feature) (row : Locality) : Prop :=
  fields f !! "NOMGEO" = Some (name row) /\
  normalise f ≫= reproject ct = Some (geometry row) /\
  locality_type row = lt /\
  metadata_from f ∅ (attributes self) = Some (metadata row).

(** What linking [row] to its parents does to the migrator's own lookup and
    to the [is_part_of] relation. *)
Definition linked (self : migrator)
    (stores : option (gmap string (gmap string Locality)))
    (f : Feature) (row : Locality)
    (locs locs' : gmap string Locality) (rel rel' : gmap nat (gset nat)) : Prop :=
  match self with
  | EntityMigrator =>
      exists code,
        fields f !! "CVE_ENT" = Some code /\
        locs' = <[code := row]> locs /\ rel' = rel
  | MunicipalityMigrator =>
      exists entities code entity mcode,
        stores ≫= (fun d => d !! "entities") = Some entities /\
        fields f !! "CVE_ENT" = Some code /\
        entities !! code = Some entity /\
        fields f !! "CVE_MUN" = Some mcode /\
        locs' = <[mcode := row]> locs /\
        rel' = <[pk row := default ∅ (rel !! pk row) ∪ {[pk entity]}]> rel
  | LocalityMigrator =>
      exists entities code entity municipalities mcode municipality,
        stores ≫= (fun d => d !! "entities") = Some entities /\
        fields f !! "CVE_ENT" = Some code /\
        entities !! code = Some entity /\
        stores ≫= (fun d => d !! "municipalities") = Some municipalities /\
        fields f !! "CVE_MUN" = Some mcode /\
        municipalities !! mcode = Some municipality /\
        locs' = locs /\
        rel' = <[pk row := default ∅ (rel !! pk row) ∪ {[pk entity; pk municipality]}]> rel
  end.

(** The rows a completed loop over [fs] stores, with the lookup and the
    relation threaded through the iterations; [n] rows exist before it. *)
Fixpoint pass_rows (self : migrator)
    (stores : option (gmap string (gmap string Locality)))
    (lt : LocalityType) (ct : coord -> option coord) (n : nat)
    (locs : gmap string Locality) (rel : gmap nat (gset nat))
    (fs : list Feature) (rows : list Locality)
    (locs' : gmap string Locality) (rel' : gmap nat (gset nat)) : Prop :=
  match fs, rows with
  | [], [] => locs' = locs /\ rel' = rel
  | f :: fs', row :: rows' =>
      created_from self lt ct f row /\ pk row = S n /\
      exists locs1 rel1,
        linked self stores f row locs locs1 rel rel1 /\
        pass_rows self stores lt ct (S n) locs1 rel1 fs' rows' locs' rel'
  | _, _ => False
  end.

(** The code under which a migrator files a feature in its own lookup. *)
Definition own_code (self : migrator) (f : Feature) : option string :=
  match self with
  | EntityMigrator => fields f !! "CVE_ENT"
  | MunicipalityMigrator => fields f !! "CVE_MUN"
  | LocalityMigrator => None
  end.

(** Readers of a schema document. *)
Definition schema_member (key : string) (doc : json) : option json :=
  match doc with
  | JObject members => dict_get key members
  | _ => None
  end.

Definition required_of (doc : json) : list json :=
  match schema_member "required" doc with
  | Some (JArray items) => items
  | _ => []
  end.

Definition properties_of (doc : json) : list (string * json) :=
  match schema_member "properties" doc with
  | Some (JObject members) => members
  | _ => []
  end.

(** The property declared for an attribute with label [title]. *)
Definition integer_property (title : string) : json :=
  JObject [("type", JString "integer"); ("title", JString title)].

(** A computation that neither reads nor writes the state. *)
Definition stateless {A} (m : M A) : Prop :=
  exists r, forall w, m w = (r, w).

(** The attribute codes of a level. *)
Definition codes_of (self : migrator) : list string := (attributes self).*1.

(** The properties dictionary [p] once the attributes [attrs] are declared
    in it. *)
Definition declare (attrs : list (string * string)) (p : list (string * json))
    : list (string * json) :=
  foldl (fun p '(name, title) => dict_set name (integer_property title) p) p attrs.

(** The document a migrator serialises when the two shared containers hold
    [required] and [properties]. *)
Definition schema_document (self : migrator) (required : list string)
    (properties : list (string * json)) : json :=
  JObject
    [ ("$schema", JString "http://json-schema.org/draft-07/schema#");
      ("type", JString "object");
      ("title", JString (name_of self +:+ " INEGI Marco Geoestadístico 2018"));
      ("required", JArray (JString <$> required));
      ("properties", JObject properties) ].

(** The type row a migrator registers for a layer whose spatial reference
    is [datum]. *)
Definition registered_type (self : migrator) (datum : string) (w : world) : LocalityType :=
  {| type_pk := S (length (locality_types w));
     metadata_schema :=
       schema_document self (schema_required w ++ codes_of self)
         (declare (attributes self) (schema_properties w));
     type_name := "MARCO GEOESTADÍSTICO INTEGRADO, DICIEMBRE  2018 (" +:+ name_of self +:+ ")";
     publication_date := {| year := 2018; month := 12; day := 1 |};
     source := "https://www.inegi.org.mx/temas/mg/default.html";
     description := INEGI_DESCRIPTION;
     original_datum := datum |}.

(** The state in which the loop of [migrate] starts: the pass is announced
    in the log, the shared schema containers have grown and the type row
    [lt] is stored. *)
Definition loop_entry (self : migrator) (lt : LocalityType) (w : world) : world :=
  set_locality_types (locality_types w ++ [lt])
    (set_schema (schema_required w ++ codes_of self)
       (declare (attributes self) (schema_properties w))
       (set_log (log w ++ ["Migrating " +:+ name_of self]) w)).

(** Two lookup collections that hold the same codes, whatever the rows. *)
Definition same_codes (s1 s2 : option (gmap string (gmap string Locality))) : Prop :=
  forall key,
    match s1 ≫= (fun d => d !! key), s2 ≫= (fun d => d !! key) with
    | Some a, Some b => dom a = dom b
    | None, None => True
    | _, _ => False
    end.

(** [w'] is [w] with rows added and nothing taken away: what the module may
    do to the database and to its surroundings, whatever the outcome. *)
Record grows (w w' : world) : Prop := {
  grows_types :
    exists types, locality_types w' = locality_types w ++ types;
  grows_rows :
    exists rows,
      localities w' = localities w ++ rows /\
      forall i row, rows !! i = Some row -> pk row = S (length (localities w) + i);
  grows_old_links :
    forall k, k <= length (localities w) -> is_part_of w' !! k = is_part_of w !! k;
  grows_consistent : db_consistent w -> db_consistent w';
  grows_data_dir : data_dir w' = data_dir w;
  grows_spatial_ref_sys : spatial_ref_sys w' = spatial_ref_sys w;
  grows_target_dir : is_Some (target_dir w) -> target_dir w' = target_dir w;
  grows_log : exists msgs, log w' = log w ++ msgs;
  grows_required : exists cs, schema_required w' = schema_required w ++ cs
}.

(** The rows of the table carry their position as primary key. *)
Definition keys_in_order (w : world) : Prop :=
  forall i row, localities w !! i = Some row -> pk row = S i.




End Migration.

(** * Sample inputs

    Small shapefile sets on integer coordinates, with the identity as
    reprojection.  [packed] is a fresh checkout: the archives are there, the
    extraction directory is not, the database is empty and the template is as
    the module literal builds it. *)

Module Samples.

Definition point : Type := nat * nat.

Definition identity : string -> string -> point -> option point :=
  fun _ _ c => Some c.

Definition srid : nat := 4326.

Definition square (x y : nat) : @OGRGeometry point :=
  Polygon [[(x, y); (x, S y); (S x, S y); (S x, y); (x, y)]].

Definition feature (g : @OGRGeometry point) (row : list (string * string))
    : @Feature point :=
  {| geom_type := "Polygon"; geom := g; fields := list_to_map row |}.

Definition aguascalientes : @Feature point :=
  feature (MultiPolygon [[[(0, 0); (0, 4); (4, 4); (0, 0)]]])
    [("NOMGEO", "Aguascalientes"); ("CVEGEO", "01"); ("CVE_ENT", "01")].

Definition baja_california : @Feature point :=
  feature (square 10 10)
    [("NOMGEO", "Baja California"); ("CVEGEO", "02"); ("CVE_ENT", "02")].

Definition municipio_aguascalientes : @Feature point :=
  feature (square 1 1)
    [("NOMGEO", "Aguascalientes"); ("CVEGEO", "01001");
     ("CVE_ENT", "01"); ("CVE_MUN", "001")].

Definition municipio_ensenada : @Feature point :=
  feature (square 11 11)
    [("NOMGEO", "Ensenada"); ("CVEGEO", "02001");
     ("CVE_ENT", "02"); ("CVE_MUN", "001")].

(** A municipality of an entity that the entity layer does not have. *)
Definition municipio_sin_entidad : @Feature point :=
  feature (square 20 20)
    [("NOMGEO", "La Paz"); ("CVEGEO", "03003");
     ("CVE_ENT", "03"); ("CVE_MUN", "003")].

Definition localidad_aguascalientes : @Feature point :=
  feature (square 2 2)
    [("NOMGEO", "Aguascalientes"); ("CVEGEO", "010010001");
     ("CVE_ENT", "01"); ("CVE_MUN", "001"); ("CVE_LOC", "0001")].

Definition layer (fs : list (@Feature point)) : @Layer point :=
  {| srs := Some "GEOGCS[ITRF92]"; features := fs |}.

Definition entity_layer : @Layer point := layer [aguascalientes; baja_california].
Definition municipality_layer : @Layer point :=
  layer [municipio_aguascalientes; municipio_ensenada].
Definition locality_layer : @Layer point := layer [localidad_aguascalientes].

Definition checkout (municipalities : @Layer point) : @world point :=
  {| target_dir := None;
     data_dir := {[ "l.zip" := {[ "01_32_l.shp" := locality_layer ]};
                    "mun.zip" := {[ "01_32_mun.shp" := municipalities ]};
                    "ent.zip" := {[ "01_32_ent.shp" := entity_layer ]} ]};
     spatial_ref_sys := {[ 4326 := "GEOGCS[WGS 84]" ]};
     schema_required := [];
     schema_properties := [];
     locality_types := [];
     localities := [];
     is_part_of := ∅;
     log := [] |}.

Definition packed : @world point := checkout municipality_layer.

(** The same checkout with a municipality whose entity is missing, between
    the two good ones. *)
Definition orphaned : @world point :=
  checkout (layer [municipio_aguascalientes; municipio_sin_entidad;
                   municipio_ensenada]).

Definition value {A} (d : A) (r : result A) : A :=
  match r with
  | Ok a => a
  | Raise _ => d
  end.

(** The stages of the migration of [packed]. *)
Definition unpacked : @world point := (unpack_data packed).2.

Definition entity_pass := migrate identity srid EntityMigrator None unpacked.
Definition entities : gmap string (@Locality point) := value ∅ entity_pass.1.

Definition municipality_stores : option (gmap string (gmap string (@Locality point))) :=
  Some {["entities" := entities]}.

Definition municipality_pass :=
  migrate identity srid MunicipalityMigrator municipality_stores entity_pass.2.
Definition municipalities : gmap string (@Locality point) := value ∅ municipality_pass.1.

Definition first_run := migrate_geostatistical_framework identity srid packed.
Definition second_run := migrate_geostatistical_framework identity srid first_run.2.

(** The stages of the migration of [orphaned]. *)
Definition orphaned_unpacked : @world point := (unpack_data orphaned).2.
Definition orphaned_entity_pass :=
  migrate identity srid EntityMigrator None orphaned_unpacked.
Definition orphaned_entities : gmap string (@Locality point) :=
  value ∅ orphaned_entity_pass.1.
Definition orphaned_type : LocalityType :=
  registered_type MunicipalityMigrator "GEOGCS[ITRF92]" orphaned_entity_pass.2.

(** The municipality loop of [orphaned] up to the municipality that has no
    entity. *)
Definition orphaned_loop :=
  for_each
    (create_locality_from_feature MunicipalityMigrator
       (Some {["entities" := orphaned_entities]}) orphaned_type
       (identity "GEOGCS[ITRF92]" "GEOGCS[WGS 84]"))
    ∅ [municipio_aguascalientes]
    (loop_entry MunicipalityMigrator orphaned_type orphaned_entity_pass.2).

Definition orphaned_run := migrate_geostatistical_framework identity srid orphaned.

(** An entity of a shapefile whose shapes carry a height: the layer declares
    Polygon25D and the geometry of the feature is one polygon. *)
Definition point25D : Type := nat * nat * nat.

Definition identity25D : string -> string -> point25D -> option point25D :=
  fun _ _ c => Some c.

Definition colima25D : @Feature point25D :=
  {| geom_type := "Polygon25D";
     geom := Polygon [[(0, 0, 1800); (0, 1, 1850); (1, 1, 1900); (0, 0, 1800)]];
     fields := list_to_map
                 [("NOMGEO", "Colima"); ("CVEGEO", "06"); ("CVE_ENT", "06")] |}.

Definition empty_database : @world point25D :=
  {| target_dir := None;
     data_dir := ∅;
     spatial_ref_sys := {[ 4326 := "GEOGCS[WGS 84]" ]};
     schema_required := [];
     schema_properties := [];
     locality_types := [];
     localities := [];
     is_part_of := ∅;
     log := [] |}.

Definition colima25D_step :=
  create_locality_from_feature EntityMigrator None
    (registered_type EntityMigrator "GEOGCS[ITRF92]" empty_database)
    (identity25D "GEOGCS[ITRF92]" "GEOGCS[WGS 84]") ∅ colima25D empty_database.

End Samples.

(** Inputs that make the migration stumble. *)

Module Faulty.

Import Samples.











End Faulty.

(** * Properties *)

Section Properties.

Context {coord : Type}.
Variable CoordTransform : string -> string -> coord -> option coord.
Variable geometry_srid : nat.

Implicit Types (w : @world coord) (f : @Feature coord) (self : migrator).
Implicit Types (fs : list (@Feature coord)) (ct : coord -> option coord).
Implicit Types (row : @Locality coord) (rows : list (@Locality coord)).
Implicit Types (locs : gmap string (@Locality coord)).
Implicit Types (stores : option (gmap string (gmap string (@Locality coord)))).
Implicit Types (rel : gmap nat (gset nat)) (lt : LocalityType).

(** ** The monad *)

Lemma bind_unfold {A B} (m : M A) (k : A -> M B) w :
  (m ≫= k) w =
  match m w with
  | (Ok a, w1) => k a w1
  | (Raise e, w1) => (Raise e, w1)
  end.
Proof. reflexivity. Qed.

Lemma bind_Ok {A B} (m : M A) (k : A -> M B) w a w1 :
  m w = (Ok a, w1) -> (m ≫= k) w = k a w1.
Proof. intros H. rewrite bind_unfold, H. reflexivity. Qed.

Lemma bind_Raise {A B} (m : M A) (k : A -> M B) w e w1 :
  m w = (Raise e, w1) -> (m ≫= k) w = (Raise e, w1).
Proof. intros H. rewrite bind_unfold, H. reflexivity. Qed.

Lemma bind_Ok_inv {A B} (m : M A) (k : A -> M B) w b w' :
  (m ≫= k) w = (Ok b, w') ->
  exists a w1, m w = (Ok a, w1) /\ k a w1 = (Ok b, w').
Proof.
  rewrite bind_unfold. destruct (m w) as [[a|e] w1]; intros H.
  - exists a, w1. split; [reflexivity | exact H].
  - discriminate H.
Qed.

Lemma bind_Raise_inv {A B} (m : M A) (k : A -> M B) w e w' :
  (m ≫= k) w = (Raise e, w') ->
  m w = (Raise e, w') \/ exists a w1, m w = (Ok a, w1) /\ k a w1 = (Raise e, w').
Proof.
  rewrite bind_unfold. destruct (m w) as [[a|e0] w1]; intros H.
  - right. exists a, w1. split; [reflexivity | exact H].
  - left. injection H as -> ->. reflexivity.
Qed.

Lemma or_raise_Ok_inv {A} e (o : option A) w a w' :
  or_raise e o w = (Ok a, w') -> o = Some a /\ w' = w.
Proof. destruct o; unfold or_raise, ret, raise; intros H; simplify_eq; done. Qed.

Lemma or_raise_Some {A} e (a : A) w : or_raise e (Some a) w = (Ok a, w).
Proof. reflexivity. Qed.

Lemma or_raise_None {A} e w : or_raise (A := A) e None w = (Raise e, w).
Proof. reflexivity. Qed.

Lemma ret_Ok_inv {A} (a b : A) w w' : ret a w = (Ok b, w') -> b = a /\ w' = w.
Proof. unfold ret. intros H; simplify_eq; done. Qed.

Lemma get_world_eq w : get_world w = (Ok w, w).
Proof. reflexivity. Qed.

Lemma modify_eq (g : world -> world) w : modify g w = (Ok tt, g w).
Proof. reflexivity. Qed.

Lemma get_world_Ok_inv w a w' : get_world w = (Ok a, w') -> a = w /\ w' = w.
Proof. rewrite get_world_eq. intros H. injection H as <- <-. done. Qed.

Lemma modify_Ok_inv (g : world -> world) w u w' : modify g w = (Ok u, w') -> w' = g w.
Proof. rewrite modify_eq. intros H. injection H as <-. done. Qed.

(** Inversion of a computation that returned. *)
Ltac inv_Ok :=
  repeat match goal with
  | H : (_ ≫= _) _ = (Ok _, _) |- _ =>
      apply bind_Ok_inv in H; destruct H as (? & ? & ? & H)
  | H : or_raise _ _ _ = (Ok _, _) |- _ =>
      apply or_raise_Ok_inv in H; destruct H as [? ?]
  | H : ret _ _ = (Ok _, _) |- _ =>
      apply ret_Ok_inv in H; destruct H as [? ?]
  | H : get_world _ = (Ok _, _) |- _ =>
      apply get_world_Ok_inv in H; destruct H as [? ?]
  | H : modify _ _ = (Ok _, _) |- _ =>
      apply modify_Ok_inv in H
  end; subst.

(** Stateless computations compose. *)
Lemma stateless_ret {A} (a : A) : stateless (coord := coord) (ret a).
Proof. exists (Ok a). reflexivity. Qed.

Lemma stateless_raise {A} e : stateless (coord := coord) (raise (A := A) e).
Proof. exists (Raise e). reflexivity. Qed.

Lemma stateless_or_raise {A} e (o : option A) : stateless (coord := coord) (or_raise e o).
Proof. destruct o; [apply (stateless_ret a) | apply stateless_raise]. Qed.

Lemma stateless_bind {A B} (m : M A) (k : A -> M B) :
  stateless m -> (forall a, stateless (k a)) -> stateless (coord := coord) (m ≫= k).
Proof.
  intros [r Hr] Hk. destruct r as [a|e].
  - destruct (Hk a) as [r' Hr']. exists r'. intros w.
    rewrite (bind_Ok _ _ _ _ _ (Hr w)). apply Hr'.
  - exists (Raise e). intros w. apply bind_Raise, Hr.
Qed.

Lemma stateless_for_each {A S} (body : S -> A -> M S) l :
  (forall s x, stateless (body s x)) ->
  forall s, stateless (coord := coord) (for_each body s l).
Proof.
  intros Hbody. induction l as [|x l IH]; intros s; simpl.
  - apply (stateless_ret s).
  - apply stateless_bind; [apply Hbody | apply IH].
Qed.

(** ** Loops *)

Lemma for_each_app {A S} (body : S -> A -> M S) l1 l2 s w :
  for_each body s (l1 ++ l2) w =
  (for_each body s l1 ≫= fun s1 => for_each body s1 l2) w.
Proof.
  revert s w. induction l1 as [|x l1 IH]; intros s w; simpl.
  - reflexivity.
  - rewrite !bind_unfold. destruct (body s x w) as [[s1|e] w1]; [|reflexivity].
    rewrite IH. reflexivity.
Qed.

(** ** Reading a feature *)

Lemma feature_get_eq f field w :
  feature_get f field w =
  (match fields f !! field with
   | Some v => Ok v
   | None => Raise (IndexError field)
   end, w).
Proof. unfold feature_get. destruct (fields f !! field); reflexivity. Qed.

Lemma stateless_feature_get f field : stateless (feature_get f field).
Proof. apply stateless_or_raise. Qed.

(** The guard reads the type the layer declares, so [add] is reached by
    whatever geometry a feature of a Polygon layer has, and refuses what is
    neither a polygon nor a multi-polygon. *)
Lemma wrap_eq (f : Feature) w :
  (if OGRGeomType_eq (geom_type f) "Polygon"
   then add (MultiPolygon []) (geom f) else ret (geom f)) w
  = (match normalise f with
     | Some g => Ok g
     | None => Raise GDALException
     end, w).
Proof.
  unfold normalise.
  destruct (OGRGeomType_eq (geom_type f) "Polygon"); [|reflexivity].
  destruct (geom f); reflexivity.
Qed.

Lemma transform_eq ct (g : @OGRGeometry coord) w :
  transform ct g w =
  (match reproject ct g with
   | Some g' => Ok g'
   | None => Raise GDALException
   end, w).
Proof. unfold transform. destruct (reproject ct g); reflexivity. Qed.

Lemma metadata_loop_Some f attrs : forall d md w,
  metadata_from f d attrs = Some md ->
  for_each (fun (d : gmap string string) '(field, _) =>
              v ← feature_get f field; ret (<[field := v]> d)) d attrs w
  = (Ok md, w).
Proof.
  induction attrs as [|[field title] attrs IH]; intros d md w H; simpl in *.
  - injection H as ->. reflexivity.
  - destruct (fields f !! field) as [v|] eqn:Hv; [|discriminate].
    rewrite bind_unfold, bind_unfold, feature_get_eq, Hv. simpl.
    apply IH, H.
Qed.

Lemma metadata_loop_None f attrs : forall d,
  metadata_from f d attrs = None ->
  exists e, forall w,
    for_each (fun (d : gmap string string) '(field, _) =>
                v ← feature_get f field; ret (<[field := v]> d)) d attrs w
    = (Raise e, w).
Proof.
  induction attrs as [|[field title] attrs IH]; intros d H; simpl in *.
  - discriminate.
  - destruct (fields f !! field) as [v|] eqn:Hv.
    + destruct (IH _ H) as [e He]. exists e. intros w.
      rewrite bind_unfold, bind_unfold, feature_get_eq, Hv. simpl. apply He.
    + exists (IndexError field). intros w.
      rewrite bind_unfold, bind_unfold, feature_get_eq, Hv. reflexivity.
Qed.

Lemma get_feature_metadata_Some self f md w :
  metadata_from f ∅ (attributes self) = Some md ->
  get_feature_metadata self f w = (Ok md, w).
Proof. apply metadata_loop_Some. Qed.

Lemma get_feature_metadata_None self f :
  metadata_from f ∅ (attributes self) = None ->
  exists e, forall w, get_feature_metadata self f w = (Raise e, w).
Proof. apply metadata_loop_None. Qed.

Lemma get_feature_metadata_Ok_inv self f md w w' :
  get_feature_metadata self f w = (Ok md, w') ->
  metadata_from f ∅ (attributes self) = Some md /\ w' = w.
Proof.
  intros H. destruct (metadata_from f ∅ (attributes self)) as [md'|] eqn:Hm.
  - rewrite (get_feature_metadata_Some _ _ _ _ Hm) in H. injection H as -> ->. done.
  - destruct (get_feature_metadata_None _ _ Hm) as [e He].
    rewrite He in H. discriminate.
Qed.


(** ** Storing and linking a row *)

Lemma set_is_part_of_id w : set_is_part_of (is_part_of w) w = w.
Proof. destruct w; reflexivity. Qed.

Lemma Locality_create_eq nm (g : @OGRGeometry coord) lt md w :
  Locality_create nm g lt md w =
  let row := {| pk := S (length (localities w)); name := nm; geometry := g;
                locality_type := lt; metadata := md |} in
  (Ok row, set_localities (localities w ++ [row]) w).
Proof. reflexivity. Qed.

Lemma stores_getitem_eq (stores : option (gmap string (gmap string (@Locality coord)))) key w :
  stores_getitem stores key w =
  (match stores with
   | None => Raise TypeError
   | Some d => match d !! key with Some s => Ok s | None => Raise (KeyError key) end
   end, w).
Proof. destruct stores as [d|]; [|reflexivity]. simpl. destruct (d !! key); reflexivity. Qed.

Lemma stores_getitem_Ok_inv (stores : option (gmap string (gmap string (@Locality coord)))) key w s w' :
  stores_getitem stores key w = (Ok s, w') ->
  stores ≫= (fun d => d !! key) = Some s /\ w' = w.
Proof.
  rewrite stores_getitem_eq. destruct stores as [d|]; simpl; [|intros; simplify_eq].
  destruct (d !! key); intros; simplify_eq. done.
Qed.

Lemma stores_getitem_Some (stores : option (gmap string (gmap string (@Locality coord)))) key w s :
  stores ≫= (fun d => d !! key) = Some s ->
  stores_getitem stores key w = (Ok s, w).
Proof.
  rewrite stores_getitem_eq. destruct stores as [d|]; simpl; [|done].
  intros ->. done.
Qed.

Lemma feature_get_Ok_inv f field w v w' :
  feature_get f field w = (Ok v, w') -> fields f !! field = Some v /\ w' = w.
Proof. apply or_raise_Ok_inv. Qed.

Lemma feature_get_Some f field w v :
  fields f !! field = Some v -> feature_get f field w = (Ok v, w).
Proof. intros H. rewrite feature_get_eq, H. reflexivity. Qed.

Lemma is_part_of_add_eq (row : @Locality coord) parents w :
  is_part_of_add row parents w =
  (Ok tt, set_is_part_of
            (<[pk row := default ∅ (is_part_of w !! pk row) ∪ list_to_set (pk <$> parents)]>
               (is_part_of w)) w).
Proof. reflexivity. Qed.

(** Inversion through the library calls as well. *)
Ltac inv_calls :=
  repeat (inv_Ok; match goal with
  | H : feature_get _ _ _ = (Ok _, _) |- _ =>
      apply feature_get_Ok_inv in H; destruct H as [? ?]
  | H : stores_getitem _ _ _ = (Ok _, _) |- _ =>
      apply stores_getitem_Ok_inv in H; destruct H as [? ?]
  | H : is_part_of_add _ _ _ = (_, _) |- _ =>
      rewrite is_part_of_add_eq in H; injection H as ? ?
  | H : get_feature_metadata _ _ _ = (Ok _, _) |- _ =>
      apply get_feature_metadata_Ok_inv in H; destruct H as [? ?]
  | H : Locality_create _ _ _ _ _ = (_, _) |- _ =>
      rewrite Locality_create_eq in H; injection H as ? ?
  end); inv_Ok.

Lemma create_locality_implications_Ok_inv self stores locs f row w locs' w' :
  create_locality_implications self stores locs f row w = (Ok locs', w') ->
  exists rel',
    linked self stores f row locs locs' (is_part_of w) rel' /\
    w' = set_is_part_of rel' w.
Proof.
  destruct self; simpl; intros H; inv_calls.
  - eexists. split; [eexists; done | by rewrite set_is_part_of_id].
  - eexists. split; [|reflexivity].
    do 4 eexists. repeat split; try eassumption.
    simpl. rewrite union_empty_r_L. reflexivity.
  - eexists. split; [|reflexivity].
    do 6 eexists. repeat split; try eassumption.
    simpl. rewrite union_empty_r_L. reflexivity.
Qed.

Lemma create_locality_implications_Ok self stores locs f row w locs' rel' :
  linked self stores f row locs locs' (is_part_of w) rel' ->
  create_locality_implications self stores locs f row w
  = (Ok locs', set_is_part_of rel' w).
Proof.
  destruct self; simpl.
  - intros (code & Hc & -> & ->).
    rewrite (bind_Ok _ _ _ _ _ (feature_get_Some _ _ _ _ Hc)).
    by rewrite set_is_part_of_id.
  - intros (entities & code & entity & mcode & Hs & Hc & He & Hm & -> & ->).
    rewrite (bind_Ok _ _ _ _ _ (stores_getitem_Some _ _ _ _ Hs)).
    rewrite (bind_Ok _ _ _ _ _ (feature_get_Some _ _ _ _ Hc)).
    rewrite He. rewrite (bind_Ok _ _ _ _ _ (or_raise_Some _ _ _)).
    rewrite (bind_Ok _ _ _ _ _ (is_part_of_add_eq _ _ _)).
    rewrite (bind_Ok _ _ _ _ _ (feature_get_Some _ _ _ _ Hm)).
    simpl. rewrite union_empty_r_L. reflexivity.
  - intros (entities & code & entity & municipalities & mcode & municipality
            & Hs & Hc & He & Hs' & Hm & Hmu & -> & ->).
    rewrite (bind_Ok _ _ _ _ _ (stores_getitem_Some _ _ _ _ Hs)).
    rewrite (bind_Ok _ _ _ _ _ (feature_get_Some _ _ _ _ Hc)).
    rewrite He. rewrite (bind_Ok _ _ _ _ _ (or_raise_Some _ _ _)).
    rewrite (bind_Ok _ _ _ _ _ (stores_getitem_Some _ _ _ _ Hs')).
    rewrite (bind_Ok _ _ _ _ _ (feature_get_Some _ _ _ _ Hm)).
    rewrite Hmu. rewrite (bind_Ok _ _ _ _ _ (or_raise_Some _ _ _)).
    rewrite (bind_Ok _ _ _ _ _ (is_part_of_add_eq _ _ _)).
    simpl. rewrite union_empty_r_L. reflexivity.
Qed.

(** ** One feature *)

(** The part of [create_locality_from_feature] before the row is stored
    touches no state. *)
Lemma create_locality_from_feature_unfold self stores lt ct locs f w :
  create_locality_from_feature self stores lt ct locs f w =
  match fields f !! "NOMGEO" with
  | None => (Raise (IndexError "NOMGEO"), w)
  | Some nm =>
      match normalise f ≫= reproject ct with
      | None => (Raise GDALException, w)
      | Some g =>
          match get_feature_metadata self f w with
          | (Raise e, _) => (Raise e, w)
          | (Ok md, _) =>
              let row := {| pk := S (length (localities w)); name := nm;
                            geometry := g; locality_type := lt; metadata := md |} in
              create_locality_implications self stores locs f row
                (set_localities (localities w ++ [row]) w)
          end
      end
  end.
Proof.
  unfold create_locality_from_feature.
  rewrite bind_unfold, feature_get_eq.
  destruct (fields f !! "NOMGEO") as [nm|]; [|reflexivity].
  rewrite bind_unfold, wrap_eq.
  destruct (normalise f) as [g0|]; [|reflexivity].
  rewrite bind_unfold, transform_eq.
  change (Some g0 ≫= reproject ct) with (reproject ct g0).
  destruct (reproject ct g0) as [g|]; [|reflexivity].
  rewrite bind_unfold.
  destruct (metadata_from f ∅ (attributes self)) as [md|] eqn:Hm.
  - rewrite (get_feature_metadata_Some _ _ _ _ Hm). reflexivity.
  - destruct (get_feature_metadata_None _ _ Hm) as [e He]. rewrite He. reflexivity.
Qed.

Lemma create_locality_from_feature_Ok_inv self stores lt ct locs f w locs' w' :
  create_locality_from_feature self stores lt ct locs f w = (Ok locs', w') ->
  exists row rel',
    created_from self lt ct f row /\
    pk row = S (length (localities w)) /\
    linked self stores f row locs locs' (is_part_of w) rel' /\
    w' = set_is_part_of rel' (set_localities (localities w ++ [row]) w).
Proof.
  rewrite create_locality_from_feature_unfold.
  destruct (fields f !! "NOMGEO") as [nm|] eqn:Hn; [|discriminate].
  destruct (normalise f ≫= reproject ct) as [g|] eqn:Hg; [|discriminate].
  destruct (get_feature_metadata self f w) as [[md|e] w1] eqn:Hm; [|discriminate].
  apply get_feature_metadata_Ok_inv in Hm as [Hm ->].
  intros (rel' & Hl & ->)%create_locality_implications_Ok_inv.
  eexists _, rel'. split; [|split; [|split]]; [| |exact Hl|reflexivity].
  - repeat split; assumption.
  - reflexivity.
Qed.

Lemma create_locality_from_feature_Ok self stores lt ct locs f w row locs' rel' :
  created_from self lt ct f row ->
  pk row = S (length (localities w)) ->
  linked self stores f row locs locs' (is_part_of w) rel' ->
  create_locality_from_feature self stores lt ct locs f w
  = (Ok locs', set_is_part_of rel' (set_localities (localities w ++ [row]) w)).
Proof.
  intros (Hn & Hg & Hlt & Hm) Hpk Hl.
  rewrite create_locality_from_feature_unfold, Hn, Hg.
  rewrite (get_feature_metadata_Some _ _ _ _ Hm). cbv zeta.
  replace {| pk := S (length (localities w)); name := name row;
             geometry := geometry row; locality_type := lt;
             metadata := metadata row |} with row
    by (destruct row; simpl in *; congruence).
  apply create_locality_implications_Ok. exact Hl.
Qed.

(** ** One pass over a layer *)

Lemma pass_rows_length self stores lt ct fs : forall n locs rel rows locs' rel',
  pass_rows self stores lt ct n locs rel fs rows locs' rel' ->
  length rows = length fs.
Proof.
  induction fs as [|f fs IH]; intros n locs rel [|row rows] locs' rel' H;
    simpl in *; try done.
  destruct H as (_ & _ & locs1 & rel1 & _ & H). f_equal. eapply IH, H.
Qed.

Lemma for_each_feature_Ok_inv self stores lt ct fs : forall locs w locs' w',
  for_each (create_locality_from_feature self stores lt ct) locs fs w = (Ok locs', w') ->
  exists rows rel',
    pass_rows self stores lt ct (length (localities w)) locs (is_part_of w)
      fs rows locs' rel' /\
    w' = set_is_part_of rel' (set_localities (localities w ++ rows) w).
Proof.
  induction fs as [|f fs IH]; intros locs w locs' w' H; simpl in H.
  - inv_Ok. exists [], (is_part_of w). split; [done|].
    rewrite app_nil_r. destruct w; reflexivity.
  - inv_Ok.
    apply create_locality_from_feature_Ok_inv in H0
      as (row & rel1 & Hc & Hpk & Hl & ->).
    apply IH in H as (rows & rel' & Hrows & ->).
    exists (row :: rows), rel'. split.
    + simpl. split; [exact Hc|]. split; [exact Hpk|].
      exists x, rel1. split; [exact Hl|].
      simpl in Hrows. rewrite length_app in Hrows. simpl in Hrows.
      replace (length (localities w) + 1) with (S (length (localities w))) in Hrows by lia.
      exact Hrows.
    + unfold set_is_part_of, set_localities. simpl.
      rewrite <- app_assoc. reflexivity.
Qed.

Lemma for_each_feature_Ok self stores lt ct fs : forall locs w rows locs' rel',
  pass_rows self stores lt ct (length (localities w)) locs (is_part_of w)
    fs rows locs' rel' ->
  for_each (create_locality_from_feature self stores lt ct) locs fs w
  = (Ok locs', set_is_part_of rel' (set_localities (localities w ++ rows) w)).
Proof.
  induction fs as [|f fs IH]; intros locs w [|row rows] locs' rel' H;
    simpl in H; try done.
  - destruct H as [-> ->]. simpl. rewrite app_nil_r. destruct w; reflexivity.
  - destruct H as (Hc & Hpk & locs1 & rel1 & Hl & Hrows). simpl.
    rewrite (bind_Ok _ _ _ _ _ (create_locality_from_feature_Ok _ _ _ _ _ _ _ _ _ _ Hc Hpk Hl)).
    rewrite (IH locs1 _ rows locs' rel').
    + unfold set_is_part_of, set_localities. simpl.
      rewrite <- app_assoc. reflexivity.
    + simpl. rewrite length_app. simpl.
      replace (length (localities w) + 1) with (S (length (localities w))) by lia.
      exact Hrows.
Qed.

(** *** What a pass leaves in the lookup and in the relation *)

Lemma linked_store self stores f row locs locs' rel rel' :
  linked self stores f row locs locs' rel rel' ->
  locs' = match own_code self f with
          | Some c => <[c := row]> locs
          | None => locs
          end.
Proof.
  destruct self; simpl.
  - intros (code & -> & -> & _). reflexivity.
  - intros (? & ? & ? & mcode & _ & _ & _ & -> & -> & _). reflexivity.
  - intros (? & ? & ? & ? & ? & ? & _ & _ & _ & _ & _ & _ & -> & _). reflexivity.
Qed.

Lemma linked_own_code self stores f row locs locs' rel rel' :
  linked self stores f row locs locs' rel rel' ->
  self <> LocalityMigrator -> is_Some (own_code self f).
Proof.
  destruct self; simpl; [| |done].
  - intros (code & -> & _) _. eauto.
  - intros (? & ? & ? & mcode & _ & _ & _ & -> & _) _. eauto.
Qed.

Lemma linked_rel_other self stores f row locs locs' rel rel' k :
  linked self stores f row locs locs' rel rel' ->
  k <> pk row -> rel' !! k = rel !! k.
Proof.
  destruct self; simpl.
  - intros (code & _ & _ & ->) _. reflexivity.
  - intros (? & ? & ? & ? & _ & _ & _ & _ & _ & ->) Hk.
    by rewrite lookup_insert_ne.
  - intros (? & ? & ? & ? & ? & ? & _ & _ & _ & _ & _ & _ & _ & ->) Hk.
    by rewrite lookup_insert_ne.
Qed.

Lemma pass_rows_pk self stores lt ct fs : forall n locs rel rows locs' rel' i row,
  pass_rows self stores lt ct n locs rel fs rows locs' rel' ->
  rows !! i = Some row -> pk row = S (n + i).
Proof.
  induction fs as [|f fs IH]; intros n locs rel [|r rows] locs' rel' i row H Hi;
    simpl in H; try done.
  destruct H as (_ & Hpk & locs1 & rel1 & _ & H).
  destruct i as [|i]; simpl in Hi.
  - injection Hi as <-. rewrite Hpk. lia.
  - rewrite (IH _ _ _ _ _ _ _ _ H Hi). lia.
Qed.

Lemma pass_rows_created self stores lt ct fs : forall n locs rel rows locs' rel' i f,
  pass_rows self stores lt ct n locs rel fs rows locs' rel' ->
  fs !! i = Some f ->
  exists row, rows !! i = Some row /\ created_from self lt ct f row.
Proof.
  induction fs as [|g fs IH]; intros n locs rel [|r rows] locs' rel' i f H Hi;
    simpl in H; try done.
  destruct H as (Hc & _ & locs1 & rel1 & _ & H).
  destruct i as [|i]; simpl in Hi.
  - injection Hi as <-. exists r. done.
  - apply (IH _ _ _ _ _ _ _ _ H Hi).
Qed.

(** Rows that exist when a pass starts keep their containment sets. *)
Lemma pass_rows_rel_old self stores lt ct fs : forall n locs rel rows locs' rel' k,
  pass_rows self stores lt ct n locs rel fs rows locs' rel' ->
  k <= n -> rel' !! k = rel !! k.
Proof.
  induction fs as [|f fs IH]; intros n locs rel [|r rows] locs' rel' k H Hk;
    simpl in H; try done.
  - destruct H as [_ ->]. reflexivity.
  - destruct H as (_ & Hpk & locs1 & rel1 & Hl & H).
    rewrite (IH _ _ _ _ _ _ k H) by lia.
    eapply linked_rel_other; [exact Hl | lia].
Qed.

(** The lookup of a pass: a code no feature bears keeps its entry. *)
Lemma pass_rows_store_other self stores lt ct fs c : forall n locs rel rows locs' rel',
  pass_rows self stores lt ct n locs rel fs rows locs' rel' ->
  (forall f, f ∈ fs -> own_code self f <> Some c) ->
  locs' !! c = locs !! c.
Proof.
  induction fs as [|f fs IH]; intros n locs rel [|r rows] locs' rel' H Hc;
    simpl in H; try done.
  - destruct H as [-> _]. reflexivity.
  - destruct H as (_ & _ & locs1 & rel1 & Hl & H).
    rewrite (IH _ _ _ _ _ _ H) by (intros g Hg; apply Hc; by apply list_elem_of_further).
    rewrite (linked_store _ _ _ _ _ _ _ _ Hl).
    specialize (Hc f (list_elem_of_here _ _)).
    destruct (own_code self f) as [c'|]; [|reflexivity].
    apply lookup_insert_ne. congruence.
Qed.

(** The lookup of a pass: a code maps to the row of the last feature that
    bears it. *)
Lemma pass_rows_store_last self stores lt ct fs c : forall n locs rel rows locs' rel' i f row,
  pass_rows self stores lt ct n locs rel fs rows locs' rel' ->
  fs !! i = Some f -> rows !! i = Some row ->
  own_code self f = Some c ->
  (forall j g, i < j -> fs !! j = Some g -> own_code self g <> Some c) ->
  locs' !! c = Some row.
Proof.
  induction fs as [|g fs IH]; intros n locs rel [|r rows] locs' rel' i f row H Hf Hr Hc Hlast;
    simpl in H; try done.
  destruct H as (_ & _ & locs1 & rel1 & Hl & H).
  destruct i as [|i]; simpl in Hf, Hr.
  - injection Hf as <-. injection Hr as <-.
    rewrite (pass_rows_store_other _ _ _ _ _ c _ _ _ _ _ _ H).
    + rewrite (linked_store _ _ _ _ _ _ _ _ Hl), Hc. apply lookup_insert_eq.
    + intros g' [j Hj]%list_elem_of_lookup. apply (Hlast (S j) g'); [lia | exact Hj].
  - apply (IH _ _ _ _ _ _ i f row H Hf Hr Hc).
    intros j g' Hij Hj. apply (Hlast (S j) g'); [lia | exact Hj].
Qed.

(** The lookup of a pass holds exactly the codes of the features, next to
    what it held before. *)
Lemma pass_rows_store_dom self stores lt ct fs : forall n locs rel rows locs' rel',
  pass_rows self stores lt ct n locs rel fs rows locs' rel' ->
  dom locs' = dom locs ∪ list_to_set (omap (own_code self) fs).
Proof.
  induction fs as [|f fs IH]; intros n locs rel [|r rows] locs' rel' H;
    simpl in H; try done.
  - destruct H as [-> _]. simpl. by rewrite union_empty_r_L.
  - destruct H as (_ & _ & locs1 & rel1 & Hl & H).
    rewrite (IH _ _ _ _ _ _ H), (linked_store _ _ _ _ _ _ _ _ Hl). simpl.
    destruct (own_code self f) as [c|]; simpl.
    + rewrite dom_insert_L, (union_comm_L {[c]} (dom locs)).
      by rewrite <- (assoc_L (∪)).
    + reflexivity.
Qed.

(** A row stored by a pass has the containment set its linking gave it. *)
Lemma pass_rows_rel_row self stores lt ct fs : forall n locs rel rows locs' rel' i f row,
  pass_rows self stores lt ct n locs rel fs rows locs' rel' ->
  (forall k, n < k -> rel !! k = None) ->
  fs !! i = Some f -> rows !! i = Some row ->
  exists locs0 locs1 rel0 rel1,
    linked self stores f row locs0 locs1 rel0 rel1 /\
    rel0 !! pk row = None /\
    rel' !! pk row = rel1 !! pk row.
Proof.
  induction fs as [|g fs IH]; intros n locs rel [|r rows] locs' rel' i f row H Hfresh Hf Hr;
    simpl in H; try done.
  destruct H as (_ & Hpk & locs1 & rel1 & Hl & H).
  destruct i as [|i]; simpl in Hf, Hr.
  - injection Hf as <-. injection Hr as <-.
    exists locs, locs1, rel, rel1. split; [exact Hl|]. split.
    + apply Hfresh. lia.
    + apply (pass_rows_rel_old _ _ _ _ _ _ _ _ _ _ _ _ H). lia.
  - apply (IH _ _ _ _ _ _ i f row H); [|exact Hf|exact Hr].
    intros k Hk. rewrite (linked_rel_other _ _ _ _ _ _ _ _ k Hl) by lia.
    apply Hfresh. lia.
Qed.

(** ** The type registrar *)

Lemma create_metadata_schema_eq self w :
  create_metadata_schema self w =
  (Ok (schema_document self (schema_required w ++ codes_of self)
         (declare (attributes self) (schema_properties w))),
   set_schema (schema_required w ++ codes_of self)
     (declare (attributes self) (schema_properties w)) w).
Proof.
  destruct self;
    unfold create_metadata_schema, json_dumps, getitem, append, setitem, str_concat;
    cbn;
    unfold mbind, M_bind, bind, ret, raise, or_raise, modify, get_world;
    cbn; rewrite <- ?app_assoc; reflexivity.
Qed.

Lemma create_type_eq self (layer : @Layer coord) w :
  create_type self layer w =
  match srs layer with
  | Some datum =>
      let lt := registered_type self datum w in
      (Ok lt,
       set_locality_types (locality_types w ++ [lt])
         (set_schema (schema_required w ++ codes_of self)
            (declare (attributes self) (schema_properties w)) w))
  | None =>
      (Raise AttributeError,
       set_schema (schema_required w ++ codes_of self)
         (declare (attributes self) (schema_properties w)) w)
  end.
Proof.
  unfold create_type.
  rewrite (bind_Ok _ _ _ _ _ (create_metadata_schema_eq self w)).
  destruct (srs layer) as [datum|]; reflexivity.
Qed.

Lemma get_transform_eq (layer : @Layer coord) w :
  get_transform CoordTransform geometry_srid layer w =
  (match spatial_ref_sys w !! geometry_srid with
   | None => Raise DoesNotExist
   | Some target_srs =>
       match srs layer with
       | None => Raise TypeError
       | Some source_srs => Ok (CoordTransform source_srs target_srs)
       end
   end, w).
Proof.
  unfold get_transform. rewrite bind_unfold, get_world_eq, bind_unfold.
  destruct (spatial_ref_sys w !! geometry_srid); [|reflexivity].
  simpl. rewrite bind_unfold. destruct (srs layer); reflexivity.
Qed.

Lemma DataSource_eq file w :
  DataSource file w =
  (match target_dir w ≫= (fun dir => dir !! file) with
   | Some layer => Ok layer
   | None => Raise GDALException
   end, w).
Proof.
  unfold DataSource. rewrite bind_unfold, get_world_eq, bind_unfold.
  destruct (target_dir w) as [dir|]; [|reflexivity].
  simpl. destruct (dir !! file); reflexivity.
Qed.

(** ** One migrator *)

Lemma migrate_unfold self stores w :
  migrate CoordTransform geometry_srid self stores w =
  let w0 := set_log (log w ++ ["Migrating " +:+ name_of self]) w in
  match target_dir w ≫= (fun dir => dir !! file_name self) with
  | None => (Raise GDALException, w0)
  | Some layer =>
      match srs layer with
      | None =>
          (Raise AttributeError,
           set_schema (schema_required w ++ codes_of self)
             (declare (attributes self) (schema_properties w)) w0)
      | Some datum =>
          let lt := registered_type self datum w in
          match spatial_ref_sys w !! geometry_srid with
          | None => (Raise DoesNotExist, loop_entry self lt w)
          | Some target_srs =>
              match
                for_each
                  (create_locality_from_feature self stores lt
                     (CoordTransform datum target_srs))
                  ∅ (features layer) (loop_entry self lt w)
              with
              | (Ok locs, w') =>
                  (Ok locs, set_log (log w' ++ ["Done migrating " +:+ name_of self]) w')
              | (Raise e, w') => (Raise e, w')
              end
          end
      end
  end.
Proof.
  unfold migrate. rewrite bind_unfold. unfold logging_info at 1. rewrite modify_eq.
  rewrite bind_unfold, DataSource_eq. cbn [target_dir set_log].
  destruct (target_dir w ≫= _) as [layer|]; [|reflexivity].
  rewrite bind_unfold, create_type_eq.
  destruct (srs layer) as [datum|] eqn:Hsrs; [|reflexivity].
  cbv beta iota zeta. rewrite bind_unfold, get_transform_eq, Hsrs.
  cbn [spatial_ref_sys set_locality_types set_schema set_log].
  destruct (spatial_ref_sys w !! geometry_srid) as [target_srs|]; [|reflexivity].
  rewrite bind_unfold.
  unfold loop_entry.
  cbn [locality_types schema_required schema_properties set_log].
  destruct (for_each _ _ _ _) as [[locs|e] w']; reflexivity.
Qed.

(** A pass that returns: where it read from, what it stored, what it left. *)
Lemma migrate_Ok_inv self stores w locs w' :
  migrate CoordTransform geometry_srid self stores w = (Ok locs, w') ->
  exists dir layer datum target_srs rows,
    target_dir w = Some dir /\
    dir !! file_name self = Some layer /\
    srs layer = Some datum /\
    spatial_ref_sys w !! geometry_srid = Some target_srs /\
    pass_rows self stores (registered_type self datum w)
      (CoordTransform datum target_srs) (length (localities w)) ∅ (is_part_of w)
      (features layer) rows locs (is_part_of w') /\
    w' = {| target_dir := target_dir w;
            data_dir := data_dir w;
            spatial_ref_sys := spatial_ref_sys w;
            schema_required := schema_required w ++ codes_of self;
            schema_properties := declare (attributes self) (schema_properties w);
            locality_types := locality_types w ++ [registered_type self datum w];
            localities := localities w ++ rows;
            is_part_of := is_part_of w';
            log := log w ++ ["Migrating " +:+ name_of self;
                             "Done migrating " +:+ name_of self] |}.
Proof.
  rewrite migrate_unfold. cbv zeta.
  destruct (target_dir w) as [dir|] eqn:Hdir; [|discriminate]. simpl.
  destruct (dir !! file_name self) as [layer|] eqn:Hlayer; [|discriminate].
  destruct (srs layer) as [datum|] eqn:Hsrs; [|discriminate].
  destruct (spatial_ref_sys w !! geometry_srid) as [target_srs|] eqn:Ht; [|discriminate].
  destruct (for_each _ _ _ _) as [[locs0|e] w1] eqn:Hloop; [|discriminate].
  intros H. injection H as -> <-.
  apply for_each_feature_Ok_inv in Hloop as (rows & rel' & Hrows & ->).
  exists dir, layer, datum, target_srs, rows.
  repeat split; try done.
  unfold loop_entry, set_log, set_is_part_of, set_localities, set_locality_types,
    set_schema. simpl. rewrite <- app_assoc, Hdir. reflexivity.
Qed.

Lemma migrate_Ok self stores w dir layer datum target_srs rows locs rel' :
  target_dir w = Some dir ->
  dir !! file_name self = Some layer ->
  srs layer = Some datum ->
  spatial_ref_sys w !! geometry_srid = Some target_srs ->
  pass_rows self stores (registered_type self datum w)
    (CoordTransform datum target_srs) (length (localities w)) ∅ (is_part_of w)
    (features layer) rows locs rel' ->
  migrate CoordTransform geometry_srid self stores w =
  (Ok locs,
   {| target_dir := target_dir w;
      data_dir := data_dir w;
      spatial_ref_sys := spatial_ref_sys w;
      schema_required := schema_required w ++ codes_of self;
      schema_properties := declare (attributes self) (schema_properties w);
      locality_types := locality_types w ++ [registered_type self datum w];
      localities := localities w ++ rows;
      is_part_of := rel';
      log := log w ++ ["Migrating " +:+ name_of self;
                       "Done migrating " +:+ name_of self] |}).
Proof.
  intros Hdir Hlayer Hsrs Ht Hrows.
  rewrite migrate_unfold. cbv zeta. rewrite Hdir. simpl. rewrite Hlayer, Hsrs, Ht.
  rewrite (for_each_feature_Ok _ _ _ _ _ _ _ rows locs rel') by exact Hrows.
  unfold loop_entry, set_log, set_is_part_of, set_localities, set_locality_types,
    set_schema. simpl. rewrite <- app_assoc, Hdir. reflexivity.
Qed.

(** ** The containment hierarchy *)

Lemma containment_lookup w k X : is_part_of w !! k = Some X -> containment w k = X.
Proof. unfold containment. intros ->. reflexivity. Qed.

(** In a list, the last position at or after [j] whose element satisfies a
    decidable property. *)
Lemma last_position {A} (P : A -> Prop) `{!forall x, Decision (P x)} (l : list A) :
  forall j x, l !! j = Some x -> P x ->
  exists k y, j <= k /\ l !! k = Some y /\ P y /\
    forall k' z, k < k' -> l !! k' = Some z -> ~ P z.
Proof.
  induction l as [|y l IH] using rev_ind; intros j x Hj HP; [done|].
  destruct (decide (P y)) as [Hy|Hy].
  - exists (length l), y. split; [|split; [|split]].
    + apply lookup_lt_Some in Hj. rewrite length_app in Hj. simpl in Hj. lia.
    + by rewrite lookup_app_r, Nat.sub_diag.
    + exact Hy.
    + intros k' z Hk' Hz. apply lookup_lt_Some in Hz.
      rewrite length_app in Hz. simpl in Hz. lia.
  - assert (j < length l) as Hlt.
    { destruct (decide (j < length l)) as [|Hge]; [done|].
      assert (j = length l) as ->.
      { apply lookup_lt_Some in Hj. rewrite length_app in Hj. simpl in Hj. lia. }
      rewrite lookup_app_r, Nat.sub_diag in Hj by lia. by injection Hj as <-. }
    rewrite lookup_app_l in Hj by done.
    destruct (IH j x Hj HP) as (k & z & Hjk & Hk & HPz & Hlast).
    exists k, z. split; [done|]. split.
    + rewrite lookup_app_l; [done|]. by apply lookup_lt_Some in Hk.
    + split; [done|]. intros k' z' Hk' Hz'.
      destruct (decide (k' < length l)) as [Hlt'|Hge'].
      * rewrite lookup_app_l in Hz' by done. by apply (Hlast k' z').
      * assert (k' = length l) as ->.
        { apply lookup_lt_Some in Hz'. rewrite length_app in Hz'. simpl in Hz'. lia. }
        rewrite lookup_app_r, Nat.sub_diag in Hz' by lia. by injection Hz' as <-.
Qed.

(** C3.  A completed municipality pass leaves, for every municipality
    feature, a row whose containment set is exactly one parent: the row the
    entity lookup holds under the feature's CVE_ENT code. *)
Theorem municipality_has_its_entity_as_only_parent stores w locs w' dir layer i f :
  db_consistent w ->
  migrate CoordTransform geometry_srid MunicipalityMigrator stores w = (Ok locs, w') ->
  target_dir w = Some dir ->
  dir !! "01_32_mun.shp" = Some layer ->
  features layer !! i = Some f ->
  exists row entities code entity,
    localities w' !! (length (localities w) + i) = Some row /\
    fields f !! "NOMGEO" = Some (name row) /\
    stores ≫= (fun d => d !! "entities") = Some entities /\
    fields f !! "CVE_ENT" = Some code /\
    entities !! code = Some entity /\
    containment w' (pk row) = {[pk entity]} /\
    size (containment w' (pk row)) = 1.
Proof.
  intros Hcons Hrun Hdir Hlayer Hf.
  apply migrate_Ok_inv in Hrun
    as (dir' & layer' & datum & target_srs & rows & Hdir' & Hlayer' & _ & _ & Hrows & Hw').
  rewrite Hdir in Hdir'. injection Hdir' as <-.
  change (file_name MunicipalityMigrator) with "01_32_mun.shp" in Hlayer'.
  rewrite Hlayer in Hlayer'. injection Hlayer' as <-.
  destruct (pass_rows_created _ _ _ _ _ _ _ _ _ _ _ _ _ Hrows Hf)
    as (row & Hrow & Hname & _).
  destruct (pass_rows_rel_row _ _ _ _ _ _ _ _ _ _ _ _ _ _ Hrows Hcons Hf Hrow)
    as (locs0 & locs1 & rel0 & rel1 & Hl & Hfresh & Hrel).
  destruct Hl as (entities & code & entity & mcode & Hs & Hc & He & _ & _ & ->).
  rewrite lookup_insert_eq, Hfresh in Hrel. simpl in Hrel.
  rewrite union_empty_l_L in Hrel.
  exists row, entities, code, entity.
  split.
  { rewrite Hw'. simpl. rewrite lookup_app_r by lia.
    replace (length (localities w) + i - length (localities w)) with i by lia.
    exact Hrow. }
  rewrite (containment_lookup _ _ _ Hrel).
  repeat split; try done. apply size_singleton.
Qed.

(** C10.  The municipality lookup is keyed by CVE_MUN alone: after the
    municipality pass a code maps to the row of the last feature bearing it,
    and the row of any earlier feature with the same code, whatever its
    entity, is no longer reachable through the lookup. *)
Theorem municipality_lookup_keeps_last_row_per_code stores w locs w' dir layer :
  migrate CoordTransform geometry_srid MunicipalityMigrator stores w = (Ok locs, w') ->
  target_dir w = Some dir ->
  dir !! "01_32_mun.shp" = Some layer ->
  (forall i f code,
     features layer !! i = Some f ->
     fields f !! "CVE_MUN" = Some code ->
     (forall j g, i < j -> features layer !! j = Some g ->
                  fields g !! "CVE_MUN" <> Some code) ->
     exists row,
       localities w' !! (length (localities w) + i) = Some row /\
       fields f !! "NOMGEO" = Some (name row) /\
       locs !! code = Some row) /\
  (forall i j f g code row,
     i < j ->
     features layer !! i = Some f -> features layer !! j = Some g ->
     fields f !! "CVE_MUN" = Some code -> fields g !! "CVE_MUN" = Some code ->
     localities w' !! (length (localities w) + i) = Some row ->
     locs !! code <> Some row).
Proof.
  intros Hrun Hdir Hlayer.
  apply migrate_Ok_inv in Hrun
    as (dir' & layer' & datum & target_srs & rows & Hdir' & Hlayer' & _ & _ & Hrows & Hw').
  rewrite Hdir in Hdir'. injection Hdir' as <-.
  change (file_name MunicipalityMigrator) with "01_32_mun.shp" in Hlayer'.
  rewrite Hlayer in Hlayer'. injection Hlayer' as <-.
  assert (forall i row, rows !! i = Some row ->
            localities w' !! (length (localities w) + i) = Some row) as Hat.
  { intros i row Hrow. rewrite Hw'. simpl. rewrite lookup_app_r by lia.
    replace (length (localities w) + i - length (localities w)) with i by lia.
    exact Hrow. }
  assert (forall i f code,
     features layer !! i = Some f ->
     fields f !! "CVE_MUN" = Some code ->
     (forall j g, i < j -> features layer !! j = Some g ->
                  fields g !! "CVE_MUN" <> Some code) ->
     exists row, rows !! i = Some row /\
       fields f !! "NOMGEO" = Some (name row) /\ locs !! code = Some row) as Hlast.
  { intros i f code Hf Hc Hlater.
    destruct (pass_rows_created _ _ _ _ _ _ _ _ _ _ _ _ _ Hrows Hf)
      as (row & Hrow & Hname & _).
    exists row. split; [done|]. split; [done|].
    exact (pass_rows_store_last _ _ _ _ _ code _ _ _ _ _ _ i f row Hrows Hf Hrow Hc Hlater). }
  split.
  - intros i f code Hf Hc Hlater.
    destruct (Hlast i f code Hf Hc Hlater) as (row & Hrow & Hname & Hlocs).
    exists row. auto.
  - intros i j f g code row Hij Hf Hg Hcf Hcg Hrow Hlocs.
    destruct (last_position (fun g => fields g !! "CVE_MUN" = Some code)
                (features layer) j g Hg Hcg)
      as (k & h & Hjk & Hh & Hch & Hlater).
    destruct (Hlast k h code Hh Hch Hlater) as (row' & Hrow' & _ & Hlocs').
    rewrite Hlocs in Hlocs'. injection Hlocs' as <-.
    rewrite Hw' in Hrow. simpl in Hrow. rewrite lookup_app_r in Hrow by lia.
    replace (length (localities w) + i - length (localities w)) with i in Hrow by lia.
    pose proof (pass_rows_pk _ _ _ _ _ _ _ _ _ _ _ _ _ Hrows Hrow) as Hpk.
    pose proof (pass_rows_pk _ _ _ _ _ _ _ _ _ _ _ _ _ Hrows Hrow') as Hpk'.
    lia.
Qed.

(** ** Geometry *)

(** Linking touches the relation only, also when it fails half-way. *)
Lemma create_locality_implications_frame self stores locs f row w r w' :
  create_locality_implications self stores locs f row w = (r, w') ->
  exists rel', w' = set_is_part_of rel' w.
Proof.
  assert (forall w0, exists rel', w0 = set_is_part_of rel' w0) as Hid.
  { intros w0. exists (is_part_of w0). by rewrite set_is_part_of_id. }
  assert (forall rel0 w0, exists rel', set_is_part_of rel0 w0 = set_is_part_of rel' w0)
    as Hset by eauto.
  destruct self; simpl; rewrite !bind_unfold.
  - rewrite feature_get_eq. destruct (fields f !! "CVE_ENT");
      intros H; injection H as _ <-; apply Hid.
  - rewrite stores_getitem_eq.
    destruct stores as [d|]; [|intros H; injection H as _ <-; apply Hid].
    destruct (d !! "entities") as [entities|];
      [|intros H; injection H as _ <-; apply Hid].
    rewrite bind_unfold, feature_get_eq.
    destruct (fields f !! "CVE_ENT") as [code|];
      [|intros H; injection H as _ <-; apply Hid].
    rewrite bind_unfold.
    destruct (entities !! code) as [entity|];
      [|intros H; injection H as _ <-; apply Hid].
    rewrite or_raise_Some, bind_unfold, is_part_of_add_eq, bind_unfold, feature_get_eq.
    destruct (fields f !! "CVE_MUN");
      intros H; injection H as _ <-; apply Hset.
  - rewrite stores_getitem_eq.
    destruct stores as [d|]; [|intros H; injection H as _ <-; apply Hid].
    destruct (d !! "entities") as [entities|];
      [|intros H; injection H as _ <-; apply Hid].
    rewrite bind_unfold, feature_get_eq.
    destruct (fields f !! "CVE_ENT") as [code|];
      [|intros H; injection H as _ <-; apply Hid].
    rewrite bind_unfold.
    destruct (entities !! code) as [entity|];
      [|intros H; injection H as _ <-; apply Hid].
    rewrite or_raise_Some, bind_unfold, stores_getitem_eq.
    destruct (d !! "municipalities") as [municipalities|];
      [|intros H; injection H as _ <-; apply Hid].
    rewrite bind_unfold, feature_get_eq.
    destruct (fields f !! "CVE_MUN") as [mcode|];
      [|intros H; injection H as _ <-; apply Hid].
    rewrite bind_unfold.
    destruct (municipalities !! mcode) as [municipality|];
      [|intros H; injection H as _ <-; apply Hid].
    rewrite or_raise_Some, bind_unfold, is_part_of_add_eq.
    intros H; injection H as _ <-; apply Hset.
Qed.

(** Reprojection keeps the shape of a geometry; whether a polygon is
    wrapped before is decided by the type the layer declares. *)
Lemma reproject_normalise_shape ct f (g' : @OGRGeometry coord) :
  normalise f ≫= reproject ct = Some g' ->
  (forall ps, geom f = MultiPolygon ps ->
     exists ps', mapM (mapM (mapM ct)) ps = Some ps' /\ g' = MultiPolygon ps') /\
  (forall rings, geom f = Polygon rings ->
     exists rings', mapM (mapM ct) rings = Some rings' /\
       g' = if OGRGeomType_eq (geom_type f) "Polygon"
            then MultiPolygon [rings'] else Polygon rings') /\
  (OGRGeomType_eq (geom_type f) "Polygon" = true ->
     forall rings, g' <> Polygon rings).
Proof.
  unfold normalise.
  destruct (OGRGeomType_eq (geom_type f) "Polygon");
    destruct (geom f) as [c|cs|rings|ps]; simpl; intros H; try discriminate.
  - destruct (mapM (mapM ct) rings) as [rings'|] eqn:Hr; simplify_eq/=.
    split; [done|]. split; [|done].
    intros ? [= <-]. exists rings'. done.
  - destruct (mapM (mapM (mapM ct)) ps) as [ps'|] eqn:Hp; simplify_eq/=.
    split; [|done].
    intros ? [= <-]. exists ps'. done.
  - destruct (ct c); simplify_eq/=. repeat split; intros; done.
  - destruct (mapM ct cs); simplify_eq/=. repeat split; intros; done.
  - destruct (mapM (mapM ct) rings) as [rings'|] eqn:Hr; simplify_eq/=.
    split; [done|]. split; [|done].
    intros ? [= <-]. exists rings'. done.
  - destruct (mapM (mapM (mapM ct)) ps) as [ps'|] eqn:Hp; simplify_eq/=.
    split; [|done].
    intros ? [= <-]. exists ps'. done.
Qed.

(** C4, amended.  What a migrator stores for a feature follows the type that
    the feature's layer declares.  A multi-polygon is stored as its
    reprojection, whatever the layer.  A polygon is stored as the
    multi-polygon that wraps its reprojection when the layer declares
    Polygon, and as its bare reprojection when the layer declares another
    type; so the rows of a Polygon layer never hold a bare polygon.  A row is
    stored exactly for the features that can be read, also when linking fails
    afterwards. *)
Theorem stored_geometry_follows_the_declared_type
    self stores lt ct locs f w r w' :
  create_locality_from_feature self stores lt ct locs f w = (r, w') ->
  (~ readable self ct f /\ localities w' = localities w /\ exists e, r = Raise e) \/
  (readable self ct f /\
   exists row,
     localities w' = localities w ++ [row] /\
     (forall ps, geom f = MultiPolygon ps ->
        exists ps', mapM (mapM (mapM ct)) ps = Some ps' /\
                    geometry row = MultiPolygon ps') /\
     (forall rings, geom f = Polygon rings ->
        exists rings', mapM (mapM ct) rings = Some rings' /\
          geometry row = if OGRGeomType_eq (geom_type f) "Polygon"
                         then MultiPolygon [rings'] else Polygon rings') /\
     (OGRGeomType_eq (geom_type f) "Polygon" = true ->
        forall rings, geometry row <> Polygon rings)).
Proof.
  rewrite create_locality_from_feature_unfold. unfold readable.
  destruct (fields f !! "NOMGEO") as [nm|] eqn:Hn.
  2:{ intros H. injection H as <- <-. left.
      split; [|eauto]. intros ([? ?] & _). done. }
  destruct (normalise f ≫= reproject ct) as [g|] eqn:Hg.
  2:{ intros H. injection H as <- <-. left.
      split; [|eauto]. intros (_ & [? ?] & _). done. }
  destruct (metadata_from f ∅ (attributes self)) as [md|] eqn:Hm.
  2:{ destruct (get_feature_metadata_None _ _ Hm) as [e He]. rewrite He.
      intros H. injection H as <- <-. left.
      split; [|eauto]. intros (_ & _ & [? ?]). done. }
  rewrite (get_feature_metadata_Some _ _ _ _ Hm). cbv zeta.
  intros [rel' ->]%create_locality_implications_frame.
  right. split; [eauto|].
  eexists. split; [reflexivity|]. simpl.
  apply reproject_normalise_shape, Hg.
Qed.

(** ** Type rows *)

(** C8.  Whatever the level, the type row that [create_type] stores has
    the publication date 2018-12-01, the INEGI source URL, the INEGI
    description and, as [original_datum], the spatial reference the layer
    declares.  No row is stored for a layer that declares none. *)
Theorem created_type_has_fixed_provenance self (layer : @Layer coord) w :
  match create_type self layer w with
  | (Ok lt, w') =>
      locality_types w' = locality_types w ++ [lt] /\
      publication_date lt = {| year := 2018; month := 12; day := 1 |} /\
      source lt = "https://www.inegi.org.mx/temas/mg/default.html" /\
      description lt = INEGI_DESCRIPTION /\
      srs layer = Some (original_datum lt)
  | (Raise e, w') =>
      srs layer = None /\ locality_types w' = locality_types w
  end.
Proof.
  rewrite create_type_eq. destruct (srs layer) as [datum|]; simpl; done.
Qed.

(** ** The shared schema template *)

Lemma required_of_schema_document self required properties :
  required_of (schema_document self required properties) = JString <$> required.
Proof. reflexivity. Qed.

Lemma properties_of_schema_document self required properties :
  properties_of (schema_document self required properties) = properties.
Proof. reflexivity. Qed.

Lemma elem_of_dict_keys_set {V} (c k : string) (v : V) d :
  c ∈ dict_keys (dict_set k v d) <-> c = k \/ c ∈ dict_keys d.
Proof.
  unfold dict_keys. induction d as [|[k' v'] d IH]; simpl.
  - rewrite list_elem_of_singleton. split; [auto|]. intros [?|?%elem_of_nil]; done.
  - destruct (String.eqb_spec k' k) as [->|Hne]; simpl.
    + rewrite !elem_of_cons. tauto.
    + rewrite !elem_of_cons, IH. tauto.
Qed.

Lemma elem_of_dict_keys_declare attrs : forall p c,
  c ∈ dict_keys (declare attrs p) <-> c ∈ attrs.*1 \/ c ∈ dict_keys p.
Proof.
  unfold declare.
  induction attrs as [|[name title] attrs IH]; intros p c; simpl.
  - split; [auto|]. intros [?%elem_of_nil|?]; done.
  - rewrite IH, elem_of_dict_keys_set, elem_of_cons. tauto.
Qed.

Lemma elem_of_concat_intro {A} (x : A) l (ls : list (list A)) :
  x ∈ l -> l ∈ ls -> x ∈ concat ls.
Proof.
  intros Hx Hl. induction ls as [|l' ls IH]; simpl.
  - by apply elem_of_nil in Hl.
  - apply elem_of_app. apply elem_of_cons in Hl as [<-|Hl]; [by left|].
    right. by apply IH.
Qed.

(** Every call leaves its codes in the two containers of the template. *)
Lemma create_metadata_schema_accumulates earlier : forall w,
  for_each (fun _ m => _ ← create_metadata_schema m; ret tt) tt earlier w =
  (Ok tt,
   set_schema (schema_required w ++ concat (codes_of <$> earlier))
     (foldl (fun p m => declare (attributes m) p) (schema_properties w) earlier) w).
Proof.
  induction earlier as [|m earlier IH]; intros w; simpl.
  - rewrite app_nil_r. destruct w; reflexivity.
  - rewrite bind_unfold, bind_unfold, create_metadata_schema_eq. simpl.
    rewrite IH. unfold set_schema. simpl. rewrite <- app_assoc. reflexivity.
Qed.

(** C9.  The copy of the template is shallow: its [required] list and its
    [properties] dictionary are the containers of the module-level template
    itself.  Every call appends the codes of its migrator to them and leaves
    them grown, so the document of a call shows the codes of every migrator
    that built a schema before it in the same process. *)
Theorem schema_template_containers_are_shared earlier self w :
  exists w1 doc,
    for_each (fun _ m => _ ← create_metadata_schema m; ret tt) tt earlier w
    = (Ok tt, w1) /\
    let required :=
      schema_required w ++ concat (codes_of <$> earlier) ++ codes_of self in
    let properties :=
      declare (attributes self)
        (foldl (fun p m => declare (attributes m) p) (schema_properties w) earlier) in
    create_metadata_schema self w1 = (Ok doc, set_schema required properties w1) /\
    required_of doc = JString <$> required /\
    properties_of doc = properties /\
    (forall m c, m ∈ earlier -> c ∈ codes_of m ->
       JString c ∈ required_of doc /\ c ∈ dict_keys (properties_of doc)).
Proof.
  eexists _, _. split; [apply create_metadata_schema_accumulates|].
  cbv zeta. rewrite create_metadata_schema_eq. simpl.
  rewrite <- app_assoc.
  split; [reflexivity|].
  rewrite required_of_schema_document, properties_of_schema_document.
  split; [reflexivity|]. split; [reflexivity|].
  intros m c Hm Hc. split.
  - apply list_elem_of_fmap. exists c. split; [done|].
    rewrite !elem_of_app. right. left.
    apply (elem_of_concat_intro _ (codes_of m)); [done|].
    apply list_elem_of_fmap. eauto.
  - apply elem_of_dict_keys_declare. right.
    clear self. revert Hm. generalize (schema_properties w).
    induction earlier as [|m' earlier IH]; intros p Hm; simpl.
    + by apply elem_of_nil in Hm.
    + apply elem_of_cons in Hm as [->|Hm]; [|by apply IH].
      clear IH. assert (c ∈ dict_keys (declare (attributes m') p)) as Hin.
      { apply elem_of_dict_keys_declare. left. exact Hc. }
      revert Hin. generalize (declare (attributes m') p).
      induction earlier as [|m earlier IH]; intros q Hq; simpl; [done|].
      apply IH. apply elem_of_dict_keys_declare. right. exact Hq.
Qed.

(** ** The whole migration *)

Lemma pass_rows_rel_fresh self stores lt ct fs : forall n locs rel rows locs' rel',
  pass_rows self stores lt ct n locs rel fs rows locs' rel' ->
  (forall k, n < k -> rel !! k = None) ->
  forall k, n + length rows < k -> rel' !! k = None.
Proof.
  induction fs as [|f fs IH]; intros n locs rel [|r rows] locs' rel' H Hfresh k Hk;
    simpl in H; try done.
  - destruct H as [_ ->]. apply Hfresh. simpl in Hk. lia.
  - destruct H as (_ & Hpk & locs1 & rel1 & Hl & H). simpl in Hk.
    apply (IH _ _ _ _ _ _ H); [|lia].
    intros k' Hk'. rewrite (linked_rel_other _ _ _ _ _ _ _ _ k' Hl) by lia.
    apply Hfresh. lia.
Qed.

Lemma pass_rows_store_elem self stores lt ct fs : forall n locs rel rows locs' rel' c row,
  pass_rows self stores lt ct n locs rel fs rows locs' rel' ->
  locs' !! c = Some row -> locs !! c = Some row \/ row ∈ rows.
Proof.
  induction fs as [|f fs IH]; intros n locs rel [|r rows] locs' rel' c row H Hc;
    simpl in H; try done.
  - destruct H as [-> _]. by left.
  - destruct H as (_ & _ & locs1 & rel1 & Hl & H).
    destruct (IH _ _ _ _ _ _ _ _ H Hc) as [Hc1|Hin].
    + rewrite (linked_store _ _ _ _ _ _ _ _ Hl) in Hc1.
      destruct (own_code self f) as [c'|]; [|by left].
      destruct (decide (c' = c)) as [->|Hne].
      * rewrite lookup_insert_eq in Hc1. injection Hc1 as ->.
        right. apply list_elem_of_here.
      * rewrite lookup_insert_ne in Hc1 by done. by left.
    + right. by apply list_elem_of_further.
Qed.

Lemma pass_rows_elem_created self stores lt ct fs : forall n locs rel rows locs' rel' row,
  pass_rows self stores lt ct n locs rel fs rows locs' rel' ->
  row ∈ rows -> exists f, f ∈ fs /\ created_from self lt ct f row.
Proof.
  induction fs as [|f fs IH]; intros n locs rel [|r rows] locs' rel' row H Hin;
    simpl in H; try done.
  - by apply elem_of_nil in Hin.
  - destruct H as (Hc & _ & locs1 & rel1 & _ & H).
    apply elem_of_cons in Hin as [->|Hin].
    + exists f. split; [apply list_elem_of_here | exact Hc].
    + destruct (IH _ _ _ _ _ _ _ H Hin) as (g & Hg & Hcg).
      exists g. split; [by apply list_elem_of_further | exact Hcg].
Qed.

Lemma data_is_unpacked_eq w :
  data_is_unpacked w = (Ok (match target_dir w with Some _ => true | None => false end), w).
Proof. reflexivity. Qed.

(** Unpacking writes the extraction directory and two log lines. *)
Lemma unpack_data_Ok_inv w w' :
  unpack_data w = (Ok tt, w') ->
  is_Some (target_dir w') /\
  w' = set_log (log w ++ ["Extracting zip file with geostatistical framework";
                          "Extraction done"])
         (set_target_dir (target_dir w') w).
Proof.
  unfold unpack_data, logging_info, ZipFile, extractall. simpl.
  intros H. inv_Ok. simpl. split; [eauto|].
  unfold set_log, set_target_dir. simpl. rewrite <- app_assoc. reflexivity.
Qed.

Lemma migrate_geostatistical_framework_Ok_inv w w' :
  migrate_geostatistical_framework CoordTransform geometry_srid w = (Ok tt, w') ->
  exists w0 entities w1 municipalities w2 locs,
    (is_Some (target_dir w) /\ w0 = w \/
     target_dir w = None /\ unpack_data w = (Ok tt, w0)) /\
    migrate CoordTransform geometry_srid EntityMigrator None w0 = (Ok entities, w1) /\
    migrate CoordTransform geometry_srid MunicipalityMigrator
      (Some {["entities" := entities]}) w1 = (Ok municipalities, w2) /\
    migrate CoordTransform geometry_srid LocalityMigrator
      (Some (<["municipalities" := municipalities]> {["entities" := entities]})) w2
    = (Ok locs, w').
Proof.
  unfold migrate_geostatistical_framework. intros H.
  apply bind_Ok_inv in H as (unpacked & wa & Hu & H).
  rewrite data_is_unpacked_eq in Hu. injection Hu as <- <-.
  apply bind_Ok_inv in H as ([] & w0 & Hpre & H).
  apply bind_Ok_inv in H as (entities & w1 & HE & H).
  apply bind_Ok_inv in H as (municipalities & w2 & HM & H).
  apply bind_Ok_inv in H as (locs & w3 & HL & H).
  apply ret_Ok_inv in H as [_ ->].
  exists w0, entities, w1, municipalities, w2, locs.
  split; [|done].
  destruct (target_dir w) as [dir|]; simpl in Hpre.
  - left. apply ret_Ok_inv in Hpre as [_ ->]. eauto.
  - right. done.
Qed.

Lemma migrate_geostatistical_framework_unpacked w entities w1 municipalities w2 locs w' :
  is_Some (target_dir w) ->
  migrate CoordTransform geometry_srid EntityMigrator None w = (Ok entities, w1) ->
  migrate CoordTransform geometry_srid MunicipalityMigrator
    (Some {["entities" := entities]}) w1 = (Ok municipalities, w2) ->
  migrate CoordTransform geometry_srid LocalityMigrator
    (Some (<["municipalities" := municipalities]> {["entities" := entities]})) w2
  = (Ok locs, w') ->
  migrate_geostatistical_framework CoordTransform geometry_srid w = (Ok tt, w').
Proof.
  intros [dir Hdir] HE HM HL. unfold migrate_geostatistical_framework.
  rewrite bind_unfold, data_is_unpacked_eq, Hdir. simpl.
  rewrite bind_unfold. unfold ret at 1.
  rewrite (bind_Ok _ _ _ _ _ HE), (bind_Ok _ _ _ _ _ HM), (bind_Ok _ _ _ _ _ HL).
  reflexivity.
Qed.

Lemma type_name_registered_type self datum w :
  type_name (registered_type self datum w) =
  "MARCO GEOESTADÍSTICO INTEGRADO, DICIEMBRE  2018 (" +:+ name_of self +:+ ")".
Proof. reflexivity. Qed.

(** C7.  A migration that returns ran its three passes one after the
    other.  The rows are stored level after level, in file order, with
    growing primary keys, and the log shows the same order.  The entity
    lookup handed to the municipality pass holds the code of every entity
    feature, and every municipality row has the row that lookup holds under
    its CVE_ENT code as its parent; the same goes for the municipality lookup
    and the locality pass. *)
Theorem passes_run_one_after_the_other w w' :
  db_consistent w ->
  migrate_geostatistical_framework CoordTransform geometry_srid w = (Ok tt, w') ->
  exists dir E Mu L rowsE rowsM rowsL
         (entities municipalities : gmap string Locality) unpacking,
    (target_dir w' = Some dir /\
     dir !! "01_32_ent.shp" = Some E /\
     dir !! "01_32_mun.shp" = Some Mu /\
     dir !! "01_32_l.shp" = Some L) /\
    (localities w' = localities w ++ rowsE ++ rowsM ++ rowsL /\
     length rowsE = length (features E) /\
     length rowsM = length (features Mu) /\
     length rowsL = length (features L) /\
     forall i row, (rowsE ++ rowsM ++ rowsL) !! i = Some row ->
                   pk row = S (length (localities w) + i)) /\
    ((forall row, row ∈ rowsE ->
        type_name (locality_type row) =
        "MARCO GEOESTADÍSTICO INTEGRADO, DICIEMBRE  2018 (Entidad)") /\
     (forall row, row ∈ rowsM ->
        type_name (locality_type row) =
        "MARCO GEOESTADÍSTICO INTEGRADO, DICIEMBRE  2018 (Municipio)") /\
     (forall row, row ∈ rowsL ->
        type_name (locality_type row) =
        "MARCO GEOESTADÍSTICO INTEGRADO, DICIEMBRE  2018 (Localidad)")) /\
    log w' = log w ++ unpacking ++
               ["Migrating Entidad"; "Done migrating Entidad";
                "Migrating Municipio"; "Done migrating Municipio";
                "Migrating Localidad"; "Done migrating Localidad"] /\
    (dom entities = list_to_set (omap (fun f => fields f !! "CVE_ENT") (features E)) /\
     (forall c row, entities !! c = Some row -> row ∈ rowsE) /\
     forall i f row, features Mu !! i = Some f -> rowsM !! i = Some row ->
       exists c e, fields f !! "CVE_ENT" = Some c /\ entities !! c = Some e /\
                   containment w' (pk row) = {[pk e]}) /\
    (dom municipalities = list_to_set (omap (fun f => fields f !! "CVE_MUN") (features Mu)) /\
     (forall c row, municipalities !! c = Some row -> row ∈ rowsM) /\
     forall i f row, features L !! i = Some f -> rowsL !! i = Some row ->
       exists c e mc m,
         fields f !! "CVE_ENT" = Some c /\ entities !! c = Some e /\
         fields f !! "CVE_MUN" = Some mc /\ municipalities !! mc = Some m /\
         containment w' (pk row) = {[pk e; pk m]}).
Proof.
  intros Hcons Hrun.
  apply migrate_geostatistical_framework_Ok_inv in Hrun
    as (w0 & entities & w1 & municipalities & w2 & locs & Hpre & HE & HM & HL).
  assert (exists unpacking,
            localities w0 = localities w /\ is_part_of w0 = is_part_of w /\
            log w0 = log w ++ unpacking) as (unpacking & Hl0 & Hr0 & Hlog0).
  { destruct Hpre as [[_ ->]|[_ Hun]].
    - exists []. by rewrite app_nil_r.
    - apply unpack_data_Ok_inv in Hun as [_ ->]. eexists. simpl. done. }
  apply migrate_Ok_inv in HE
    as (dir & E & datumE & tE & rowsE & Hdir0 & HfE & _ & _ & HrowsE & Hw1).
  apply migrate_Ok_inv in HM
    as (dir1 & Mu & datumM & tM & rowsM & Hdir1 & HfM & _ & _ & HrowsM & Hw2).
  apply migrate_Ok_inv in HL
    as (dir2 & L & datumL & tL & rowsL & Hdir2 & HfL & _ & _ & HrowsL & Hw').
  assert (target_dir w1 = Some dir) as Hd1 by (rewrite Hw1; exact Hdir0).
  rewrite Hd1 in Hdir1. injection Hdir1 as <-.
  assert (target_dir w2 = Some dir) as Hd2 by (rewrite Hw2; exact Hd1).
  rewrite Hd2 in Hdir2. injection Hdir2 as <-.
  assert (localities w1 = localities w ++ rowsE) as Hl1
    by (rewrite Hw1; simpl; by rewrite Hl0).
  assert (localities w2 = localities w ++ rowsE ++ rowsM) as Hl2
    by (rewrite Hw2; simpl; by rewrite Hl1, <- app_assoc).
  assert (localities w' = localities w ++ rowsE ++ rowsM ++ rowsL) as Hl3
    by (rewrite Hw'; simpl; by rewrite Hl2, <- !app_assoc).
  pose proof (pass_rows_length _ _ _ _ _ _ _ _ _ _ _ HrowsE) as HlenE.
  pose proof (pass_rows_length _ _ _ _ _ _ _ _ _ _ _ HrowsM) as HlenM.
  pose proof (pass_rows_length _ _ _ _ _ _ _ _ _ _ _ HrowsL) as HlenL.
  (* freshness of the relation at the start of each pass *)
  assert (forall k, length (localities w0) < k -> is_part_of w0 !! k = None) as Hf0
    by (rewrite Hl0, Hr0; exact Hcons).
  pose proof (pass_rows_rel_fresh _ _ _ _ _ _ _ _ _ _ _ HrowsE Hf0) as Hf1.
  assert (forall k, length (localities w1) < k -> is_part_of w1 !! k = None) as Hf1'.
  { intros k Hk. apply Hf1. rewrite Hl1, length_app in Hk. rewrite Hl0. lia. }
  pose proof (pass_rows_rel_fresh _ _ _ _ _ _ _ _ _ _ _ HrowsM Hf1') as Hf2.
  assert (forall k, length (localities w2) < k -> is_part_of w2 !! k = None) as Hf2'.
  { intros k Hk. apply Hf2. rewrite Hl2, !length_app in Hk.
    rewrite Hl1, length_app. lia. }
  exists dir, E, Mu, L, rowsE, rowsM, rowsL, entities, municipalities, unpacking.
  split; [|split; [|split; [|split; [|split]]]].
  - rewrite Hw'. simpl. done.
  - split; [exact Hl3|]. split; [exact HlenE|]. split; [exact HlenM|].
    split; [exact HlenL|].
    intros i row Hi.
    destruct (decide (i < length rowsE)) as [HiE|HiE].
    { rewrite lookup_app_l in Hi by done.
      rewrite (pass_rows_pk _ _ _ _ _ _ _ _ _ _ _ _ _ HrowsE Hi), Hl0. done. }
    rewrite lookup_app_r in Hi by lia.
    destruct (decide (i - length rowsE < length rowsM)) as [HiM|HiM].
    { rewrite lookup_app_l in Hi by done.
      rewrite (pass_rows_pk _ _ _ _ _ _ _ _ _ _ _ _ _ HrowsM Hi), Hl1, length_app. lia. }
    rewrite lookup_app_r in Hi by lia.
    rewrite (pass_rows_pk _ _ _ _ _ _ _ _ _ _ _ _ _ HrowsL Hi), Hl2, !length_app. lia.
  - split; [|split]; intros row Hin.
    + destruct (pass_rows_elem_created _ _ _ _ _ _ _ _ _ _ _ _ HrowsE Hin)
        as (f & _ & _ & _ & -> & _). reflexivity.
    + destruct (pass_rows_elem_created _ _ _ _ _ _ _ _ _ _ _ _ HrowsM Hin)
        as (f & _ & _ & _ & -> & _). reflexivity.
    + destruct (pass_rows_elem_created _ _ _ _ _ _ _ _ _ _ _ _ HrowsL Hin)
        as (f & _ & _ & _ & -> & _). reflexivity.
  - rewrite Hw'. simpl. rewrite Hw2. simpl. rewrite Hw1. simpl. rewrite Hlog0.
    rewrite <- !app_assoc. reflexivity.
  - split; [|split].
    + rewrite (pass_rows_store_dom _ _ _ _ _ _ _ _ _ _ _ HrowsE).
      rewrite dom_empty_L, union_empty_l_L. reflexivity.
    + intros c row Hc.
      destruct (pass_rows_store_elem _ _ _ _ _ _ _ _ _ _ _ _ _ HrowsE Hc) as [?|?];
        [by rewrite lookup_empty in *|done].
    + intros i f row Hf Hrow.
      destruct (pass_rows_rel_row _ _ _ _ _ _ _ _ _ _ _ _ _ _ HrowsM Hf1' Hf Hrow)
        as (locs0 & locs1 & rel0 & rel1 & Hl & Hfresh & Hrel).
      destruct Hl as (ents & c & e & mc & Hs & Hc & He & _ & _ & ->).
      simpl in Hs. rewrite lookup_singleton_eq in Hs. injection Hs as <-.
      rewrite lookup_insert_eq, Hfresh in Hrel. simpl in Hrel.
      rewrite union_empty_l_L in Hrel.
      exists c, e. split; [done|]. split; [done|].
      apply containment_lookup.
      rewrite <- Hrel.
      apply (pass_rows_rel_old _ _ _ _ _ _ _ _ _ _ _ _ HrowsL).
      rewrite (pass_rows_pk _ _ _ _ _ _ _ _ _ _ _ _ _ HrowsM Hrow).
      apply lookup_lt_Some in Hrow. rewrite Hl2, Hl1, !length_app. lia.
  - split; [|split].
    + rewrite (pass_rows_store_dom _ _ _ _ _ _ _ _ _ _ _ HrowsM).
      rewrite dom_empty_L, union_empty_l_L. reflexivity.
    + intros c row Hc.
      destruct (pass_rows_store_elem _ _ _ _ _ _ _ _ _ _ _ _ _ HrowsM Hc) as [?|?];
        [by rewrite lookup_empty in *|done].
    + intros i f row Hf Hrow.
      destruct (pass_rows_rel_row _ _ _ _ _ _ _ _ _ _ _ _ _ _ HrowsL Hf2' Hf Hrow)
        as (locs0 & locs1 & rel0 & rel1 & Hl & Hfresh & Hrel).
      destruct Hl as (ents & c & e & muns & mc & m & Hs & Hc & He & Hs' & Hmc & Hm & _ & ->).
      simpl in Hs, Hs'.
      rewrite lookup_insert_ne, lookup_singleton_eq in Hs by done. injection Hs as <-.
      rewrite lookup_insert_eq in Hs'. injection Hs' as <-.
      rewrite lookup_insert_eq, Hfresh in Hrel. simpl in Hrel.
      rewrite union_empty_l_L in Hrel.
      exists c, e, mc, m. repeat (split; [done|]).
      by apply containment_lookup.
Qed.

(** ** Running the migration again *)

Lemma same_codes_lookup (s1 s2 : option (gmap string (gmap string (@Locality coord))))
    key (d1 : gmap string (@Locality coord)) code row1 :
  same_codes s1 s2 ->
  s1 ≫= (fun d => d !! key) = Some d1 ->
  d1 !! code = Some row1 ->
  exists d2 row2, s2 ≫= (fun d => d !! key) = Some d2 /\ d2 !! code = Some row2.
Proof.
  intros Hs H1 Hc. specialize (Hs key). rewrite H1 in Hs.
  destruct (s2 ≫= _) as [d2|]; [|done].
  assert (code ∈ dom d2) as [row2 Hrow2]%elem_of_dom
    by (rewrite <- Hs; apply elem_of_dom; eauto).
  eauto.
Qed.

Lemma same_codes_None : same_codes (coord := coord) None None.
Proof. intros key. done. Qed.

Lemma same_codes_entities (d1 d2 : gmap string (@Locality coord)) :
  dom d1 = dom d2 ->
  same_codes (Some {["entities" := d1]}) (Some {["entities" := d2]}).
Proof.
  intros Hd key. simpl.
  destruct (decide (key = "entities")) as [->|Hne].
  - by rewrite !lookup_singleton_eq.
  - by rewrite !lookup_singleton_ne.
Qed.

Lemma same_codes_municipalities (d1 d2 m1 m2 : gmap string (@Locality coord)) :
  dom d1 = dom d2 -> dom m1 = dom m2 ->
  same_codes (Some (<["municipalities" := m1]> {["entities" := d1]}))
             (Some (<["municipalities" := m2]> {["entities" := d2]})).
Proof.
  intros Hd Hm key. simpl.
  destruct (decide (key = "municipalities")) as [->|Hne].
  - by rewrite !lookup_insert_eq.
  - rewrite !lookup_insert_ne by done. by apply (same_codes_entities _ _ Hd key).
Qed.

(** Linking succeeds or fails by the codes the lookups hold, not by the
    rows they hold. *)
Lemma linked_transfer self s1 s2 f row1 row2 locs1 locs1' rel1 rel1' locs2 rel2 :
  same_codes s1 s2 ->
  linked self s1 f row1 locs1 locs1' rel1 rel1' ->
  exists locs2' rel2', linked self s2 f row2 locs2 locs2' rel2 rel2'.
Proof.
  intros Hs. destruct self; simpl.
  - intros (code & Hc & _ & _). eexists _, _, code. done.
  - intros (entities & code & entity & mcode & Hst & Hc & He & Hm & _ & _).
    destruct (same_codes_lookup _ _ _ _ _ _ Hs Hst He) as (d2 & e2 & Hst2 & He2).
    eexists _, _, d2, code, e2, mcode. done.
  - intros (entities & code & entity & municipalities & mcode & municipality
            & Hst & Hc & He & Hst' & Hm & Hmu & _ & _).
    destruct (same_codes_lookup _ _ _ _ _ _ Hs Hst He) as (d2 & e2 & Hst2 & He2).
    destruct (same_codes_lookup _ _ _ _ _ _ Hs Hst' Hmu) as (m2 & mu2 & Hst2' & Hmu2).
    eexists _, _, d2, code, e2, m2, mcode, mu2. done.
Qed.

Lemma pass_rows_transfer self s1 s2 lt1 lt2 ct fs :
  same_codes s1 s2 ->
  forall n1 n2 locs1 locs2 rel1 rel2 rows1 locs1' rel1',
  pass_rows self s1 lt1 ct n1 locs1 rel1 fs rows1 locs1' rel1' ->
  exists rows2 locs2' rel2',
    pass_rows self s2 lt2 ct n2 locs2 rel2 fs rows2 locs2' rel2'.
Proof.
  intros Hs. induction fs as [|f fs IH];
    intros n1 n2 locs1 locs2 rel1 rel2 [|row1 rows1] locs1' rel1' H;
    simpl in H; try done.
  - exists [], locs2, rel2. done.
  - destruct H as ((Hn & Hg & _ & Hm) & _ & locs1a & rel1a & Hl & H).
    set (row2 := {| pk := S n2; name := name row1; geometry := geometry row1;
                    locality_type := lt2; metadata := metadata row1 |}).
    destruct (linked_transfer _ _ _ _ _ row2 _ _ _ _ locs2 rel2 Hs Hl)
      as (locs2a & rel2a & Hl2).
    destruct (IH _ (S n2) _ locs2a _ rel2a _ _ _ H) as (rows2 & locs2' & rel2' & H2).
    exists (row2 :: rows2), locs2', rel2'. simpl.
    split; [done|]. split; [done|]. eauto.
Qed.

(** A pass that returned returns again from any state with the same files,
    and stores as many rows. *)
Lemma migrate_again self s1 s2 wA wB locs1 wA' :
  migrate CoordTransform geometry_srid self s1 wA = (Ok locs1, wA') ->
  target_dir wB = target_dir wA ->
  spatial_ref_sys wB = spatial_ref_sys wA ->
  same_codes s1 s2 ->
  exists dir layer locs2 wB' lt1 lt2 rows1 rows2,
    target_dir wA = Some dir /\ dir !! file_name self = Some layer /\
    migrate CoordTransform geometry_srid self s2 wB = (Ok locs2, wB') /\
    dom locs2 = dom locs1 /\
    (target_dir wA' = target_dir wA /\ spatial_ref_sys wA' = spatial_ref_sys wA /\
     locality_types wA' = locality_types wA ++ [lt1] /\
     localities wA' = localities wA ++ rows1 /\
     length rows1 = length (features layer)) /\
    (target_dir wB' = target_dir wB /\ spatial_ref_sys wB' = spatial_ref_sys wB /\
     locality_types wB' = locality_types wB ++ [lt2] /\
     localities wB' = localities wB ++ rows2 /\
     length rows2 = length (features layer) /\
     log wB' = log wB ++ ["Migrating " +:+ name_of self;
                          "Done migrating " +:+ name_of self]).
Proof.
  intros Hrun Hdir Hsrs Hs.
  apply migrate_Ok_inv in Hrun
    as (dir & layer & datum & target_srs & rows1 & HdA & Hlayer & Hdatum & Ht & Hrows & HwA').
  destruct (pass_rows_transfer self s1 s2 _ (registered_type self datum wB) _ _ Hs
              _ (length (localities wB)) _ ∅ _ (is_part_of wB) _ _ _ Hrows)
    as (rows2 & locs2 & rel2 & Hrows2).
  assert (target_dir wB = Some dir) as HdB by (by rewrite Hdir).
  assert (spatial_ref_sys wB !! geometry_srid = Some target_srs) as HtB
    by (by rewrite Hsrs).
  pose proof (migrate_Ok self s2 wB dir layer datum target_srs rows2 locs2 rel2
                HdB Hlayer Hdatum HtB Hrows2) as Hrun2.
  eexists dir, layer, locs2, _, _, _, rows1, rows2.
  split; [exact HdA|]. split; [exact Hlayer|]. split; [exact Hrun2|].
  split.
  { rewrite (pass_rows_store_dom _ _ _ _ _ _ _ _ _ _ _ Hrows).
    rewrite (pass_rows_store_dom _ _ _ _ _ _ _ _ _ _ _ Hrows2). reflexivity. }
  split.
  - rewrite HwA'. simpl. repeat split; try done.
    apply (pass_rows_length _ _ _ _ _ _ _ _ _ _ _ Hrows).
  - simpl. repeat split; try done.
    apply (pass_rows_length _ _ _ _ _ _ _ _ _ _ _ Hrows2).
Qed.

(** With the extraction directory in place a migration leaves it alone and
    logs the three passes only. *)
Lemma unpacked_run_extracts_nothing w w' :
  is_Some (target_dir w) ->
  migrate_geostatistical_framework CoordTransform geometry_srid w = (Ok tt, w') ->
  target_dir w' = target_dir w /\
  log w' = log w ++ ["Migrating Entidad"; "Done migrating Entidad";
                     "Migrating Municipio"; "Done migrating Municipio";
                     "Migrating Localidad"; "Done migrating Localidad"].
Proof.
  intros [dir Hdir] Hrun.
  apply migrate_geostatistical_framework_Ok_inv in Hrun
    as (w0 & entities & wa & municipalities & wb & locs & Hpre & HE & HM & HL).
  destruct Hpre as [[_ ->]|[Hnone _]]; [|by rewrite Hdir in Hnone].
  apply migrate_Ok_inv in HL as (? & ? & ? & ? & ? & _ & _ & _ & _ & _ & ->).
  apply migrate_Ok_inv in HM as (? & ? & ? & ? & ? & _ & _ & _ & _ & _ & ->).
  apply migrate_Ok_inv in HE as (? & ? & ? & ? & ? & _ & _ & _ & _ & _ & ->).
  simpl. split; [reflexivity|]. rewrite <- !app_assoc. reflexivity.
Qed.

(** C6.  With the extraction directory in place a migration extracts
    nothing: it leaves the directory as it is and logs no extraction.  That is
    the case of a second migration, which still returns and stores three new
    type rows and one new row per feature of every level behind the rows of
    the first one, so that two runs leave twice the rows of one. *)
Theorem rerun_extracts_nothing_and_doubles_rows w w1 :
  migrate_geostatistical_framework CoordTransform geometry_srid w = (Ok tt, w1) ->
  (is_Some (target_dir w) ->
   target_dir w1 = target_dir w /\
   log w1 = log w ++ ["Migrating Entidad"; "Done migrating Entidad";
                      "Migrating Municipio"; "Done migrating Municipio";
                      "Migrating Localidad"; "Done migrating Localidad"]) /\
  exists w2 dir E Mu L types1 rows1 types2 rows2,
    (target_dir w1 = Some dir /\
     dir !! "01_32_ent.shp" = Some E /\
     dir !! "01_32_mun.shp" = Some Mu /\
     dir !! "01_32_l.shp" = Some L) /\
    (locality_types w1 = locality_types w ++ types1 /\ length types1 = 3 /\
     localities w1 = localities w ++ rows1 /\
     length rows1 = length (features E) + length (features Mu) + length (features L)) /\
    migrate_geostatistical_framework CoordTransform geometry_srid w1 = (Ok tt, w2) /\
    (target_dir w2 = target_dir w1 /\
     log w2 = log w1 ++ ["Migrating Entidad"; "Done migrating Entidad";
                         "Migrating Municipio"; "Done migrating Municipio";
                         "Migrating Localidad"; "Done migrating Localidad"]) /\
    (locality_types w2 = locality_types w1 ++ types2 /\ length types2 = 3 /\
     localities w2 = localities w1 ++ rows2 /\
     length rows2 = length (features E) + length (features Mu) + length (features L)) /\
    length (locality_types w2) = length (locality_types w) + 2 * 3 /\
    length (localities w2) =
      length (localities w) +
      2 * (length (features E) + length (features Mu) + length (features L)).
Proof.
  intros Hrun.
  split; [intros Hdir; by apply unpacked_run_extracts_nothing|].
  apply migrate_geostatistical_framework_Ok_inv in Hrun
    as (w0 & entities & wa & municipalities & wb & locs & Hpre & HE & HM & HL).
  assert (locality_types w0 = locality_types w /\ localities w0 = localities w)
    as [Ht0 Hl0].
  { destruct Hpre as [[_ ->]|[_ Hun]]; [done|].
    apply unpack_data_Ok_inv in Hun as [_ ->]. done. }
  (* the files and the spatial reference table the first run left *)
  destruct (migrate_again _ _ None _ w1 _ _ HE) as (dir & E & _ & _ & tE & _ & rE & _
      & Hdir0 & HfE & _ & _ & (Hda & Hsa & Hta & Hla & HnE) & _).
  { apply migrate_Ok_inv in HL as (? & ? & ? & ? & ? & _ & _ & _ & _ & _ & ->).
    apply migrate_Ok_inv in HM as (? & ? & ? & ? & ? & _ & _ & _ & _ & _ & ->).
    apply migrate_Ok_inv in HE as (? & ? & ? & ? & ? & _ & _ & _ & _ & _ & ->).
    reflexivity. }
  { apply migrate_Ok_inv in HL as (? & ? & ? & ? & ? & _ & _ & _ & _ & _ & ->).
    apply migrate_Ok_inv in HM as (? & ? & ? & ? & ? & _ & _ & _ & _ & _ & ->).
    apply migrate_Ok_inv in HE as (? & ? & ? & ? & ? & _ & _ & _ & _ & _ & ->).
    reflexivity. }
  { apply same_codes_None. }
  destruct (migrate_again _ _ (Some {["entities" := entities]}) _ wa _ _ HM)
    as (dir1 & Mu & _ & _ & tM & _ & rM & _
      & Hdir1 & HfM & _ & _ & (Hdb & Hsb & Htb & Hlb & HnM) & _);
    [done|done|by apply same_codes_entities|].
  rewrite Hda, Hdir0 in Hdir1. injection Hdir1 as <-.
  destruct (migrate_again _ _
              (Some (<["municipalities" := municipalities]> {["entities" := entities]}))
              _ wb _ _ HL)
    as (dir2 & L & _ & _ & tL & _ & rL & _
      & Hdir2 & HfL & _ & _ & (Hd1 & Hs1 & Ht1 & Hl1 & HnL) & _);
    [done|done|by apply same_codes_municipalities|].
  rewrite Hdb, Hda, Hdir0 in Hdir2. injection Hdir2 as <-.
  assert (target_dir w1 = Some dir) as Hdirw1 by (by rewrite Hd1, Hdb, Hda).
  (* the second run, pass by pass *)
  destruct (migrate_again _ _ None _ w1 _ _ HE)
    as (? & E' & entities2 & wa2 & _ & tE2 & _ & rE2
      & Hdir0' & HfE' & HE2 & HdomE & _ & (Hda2 & Hsa2 & Hta2 & Hla2 & HnE2 & Hloga2)).
  { by rewrite Hdirw1. }
  { by rewrite Hs1, Hsb, Hsa. }
  { apply same_codes_None. }
  rewrite Hdir0 in Hdir0'. injection Hdir0' as <-.
  rewrite HfE in HfE'. injection HfE' as <-.
  destruct (migrate_again _ (Some {["entities" := entities]})
              (Some {["entities" := entities2]}) _ wa2 _ _ HM)
    as (? & Mu' & municipalities2 & wb2 & _ & tM2 & _ & rM2
      & Hdir1' & HfM' & HM2 & HdomM & _ & (Hdb2 & Hsb2 & Htb2 & Hlb2 & HnM2 & Hlogb2)).
  { by rewrite Hda2, Hdirw1, Hda. }
  { by rewrite Hsa2, Hs1, Hsb. }
  { by apply same_codes_entities. }
  rewrite Hda, Hdir0 in Hdir1'. injection Hdir1' as <-.
  rewrite HfM in HfM'. injection HfM' as <-.
  destruct (migrate_again _
              (Some (<["municipalities" := municipalities]> {["entities" := entities]}))
              (Some (<["municipalities" := municipalities2]> {["entities" := entities2]}))
              _ wb2 _ _ HL)
    as (? & L' & locs2 & w2 & _ & tL2 & _ & rL2
      & Hdir2' & HfL' & HL2 & _ & _ & (Hd2 & Hs2 & Ht2 & Hl2 & HnL2 & Hlog2)).
  { by rewrite Hdb2, Hda2, Hdirw1, Hdb, Hda. }
  { by rewrite Hsb2, Hsa2, Hs1. }
  { by apply same_codes_municipalities. }
  rewrite Hdb, Hda, Hdir0 in Hdir2'. injection Hdir2' as <-.
  rewrite HfL in HfL'. injection HfL' as <-.
  exists w2, dir, E, Mu, L, [tE; tM; tL], (rE ++ rM ++ rL),
         [tE2; tM2; tL2], (rE2 ++ rM2 ++ rL2).
  assert (locality_types w1 = locality_types w ++ [tE; tM; tL]) as Htypes1.
  { rewrite Ht1, Htb, Hta, Ht0, <- !app_assoc. reflexivity. }
  assert (localities w1 = localities w ++ rE ++ rM ++ rL) as Hrows1.
  { rewrite Hl1, Hlb, Hla, Hl0, <- !app_assoc. reflexivity. }
  assert (locality_types w2 = locality_types w1 ++ [tE2; tM2; tL2]) as Htypes2.
  { rewrite Ht2, Htb2, Hta2, <- !app_assoc. reflexivity. }
  assert (localities w2 = localities w1 ++ rE2 ++ rM2 ++ rL2) as Hrows2.
  { rewrite Hl2, Hlb2, Hla2, <- !app_assoc. reflexivity. }
  split; [done|].
  split. { split; [done|]. split; [done|]. split; [done|]. rewrite !length_app. lia. }
  split.
  { apply (migrate_geostatistical_framework_unpacked _ entities2 wa2 municipalities2 wb2 locs2);
      [eauto|done|done|done]. }
  split.
  { split; [by rewrite Hd2, Hdb2, Hda2|].
    rewrite Hlog2, Hlogb2, Hloga2, <- !app_assoc. reflexivity. }
  split. { split; [done|]. split; [done|]. split; [done|]. rewrite !length_app. lia. }
  rewrite Htypes2, Htypes1, Hrows2, Hrows1, !length_app. simpl. lia.
Qed.

(** ** A municipality without its entity *)

Lemma create_locality_from_feature_unknown_entity stores entities lt ct locs f w code :
  readable MunicipalityMigrator ct f ->
  stores ≫= (fun d => d !! "entities") = Some entities ->
  fields f !! "CVE_ENT" = Some code ->
  entities !! code = None ->
  exists row,
    created_from MunicipalityMigrator lt ct f row /\
    pk row = S (length (localities w)) /\
    create_locality_from_feature MunicipalityMigrator stores lt ct locs f w
    = (Raise (KeyError code), set_localities (localities w ++ [row]) w).
Proof.
  intros ([nm Hn] & [g Hg] & [md Hm]) Hs Hc He.
  exists {| pk := S (length (localities w)); name := nm; geometry := g;
            locality_type := lt; metadata := md |}.
  split; [done|]. split; [done|].
  rewrite create_locality_from_feature_unfold, Hn, Hg.
  rewrite (get_feature_metadata_Some _ _ _ _ Hm). cbv zeta.
  cbn [create_locality_implications].
  rewrite (bind_Ok _ _ _ _ _ (stores_getitem_Some _ _ _ _ Hs)).
  rewrite (bind_Ok _ _ _ _ _ (feature_get_Some _ _ _ _ Hc)).
  rewrite He. apply bind_Raise. reflexivity.
Qed.

(** C5, as the code has it.  When the municipality pass reaches a readable
    feature whose CVE_ENT code the entity lookup does not hold, the whole
    migration stops with the key error for that code.  By then the row of that
    feature is stored, with an empty containment set; no feature after it
    is read, the locality pass does not start, and what was stored before
    stays. *)
Theorem unknown_entity_aborts_after_storing_the_row
    w w0 entities w1 dir layer datum target_srs fs1 f fs2 locs1 w2 code :
  db_consistent w ->
  match target_dir w with
  | Some _ => (Ok tt, w)
  | None => unpack_data w
  end = (Ok tt, w0) ->
  migrate CoordTransform geometry_srid EntityMigrator None w0 = (Ok entities, w1) ->
  target_dir w1 = Some dir ->
  dir !! "01_32_mun.shp" = Some layer ->
  srs layer = Some datum ->
  spatial_ref_sys w1 !! geometry_srid = Some target_srs ->
  features layer = fs1 ++ f :: fs2 ->
  for_each
    (create_locality_from_feature MunicipalityMigrator
       (Some {["entities" := entities]})
       (registered_type MunicipalityMigrator datum w1)
       (CoordTransform datum target_srs))
    ∅ fs1 (loop_entry MunicipalityMigrator
             (registered_type MunicipalityMigrator datum w1) w1)
  = (Ok locs1, w2) ->
  readable MunicipalityMigrator (CoordTransform datum target_srs) f ->
  fields f !! "CVE_ENT" = Some code ->
  entities !! code = None ->
  exists row w',
    migrate_geostatistical_framework CoordTransform geometry_srid w
    = (Raise (KeyError code), w') /\
    created_from MunicipalityMigrator
      (registered_type MunicipalityMigrator datum w1)
      (CoordTransform datum target_srs) f row /\
    localities w' = localities w2 ++ [row] /\
    length (localities w2) = length (localities w1) + length fs1 /\
    containment w' (pk row) = ∅ /\
    locality_types w' =
      locality_types w1 ++ [registered_type MunicipalityMigrator datum w1] /\
    log w' = log w1 ++ ["Migrating Municipio"].
Proof.
  intros Hcons Hpre HE Hdir Hlayer Hdatum Ht Hfs Hloop Hread Hc He.
  destruct (create_locality_from_feature_unknown_entity
              (Some {["entities" := entities]}) entities
              (registered_type MunicipalityMigrator datum w1)
              (CoordTransform datum target_srs) locs1 f w2 code Hread)
    as (row & Hrow & Hpk & Hstep); [simpl; by rewrite lookup_singleton_eq|done|done|].
  exists row, (set_localities (localities w2 ++ [row]) w2).
  (* the municipality pass stops at [f] *)
  assert (migrate CoordTransform geometry_srid MunicipalityMigrator
            (Some {["entities" := entities]}) w1
          = (Raise (KeyError code), set_localities (localities w2 ++ [row]) w2))
    as HM.
  { rewrite migrate_unfold. cbv zeta. rewrite Hdir. simpl.
    rewrite Hlayer, Hdatum, Ht, Hfs, for_each_app.
    rewrite (bind_Ok _ _ _ _ _ Hloop). simpl.
    rewrite (bind_Raise _ _ _ _ _ Hstep). reflexivity. }
  (* so does the migration *)
  assert (migrate_geostatistical_framework CoordTransform geometry_srid w
          = (Raise (KeyError code), set_localities (localities w2 ++ [row]) w2))
    as Hrun.
  { unfold migrate_geostatistical_framework.
    rewrite bind_unfold, data_is_unpacked_eq.
    assert (((if negb (match target_dir w with Some _ => true | None => false end)
              then unpack_data else ret tt) : M unit) w = (Ok tt, w0)) as Hpre'.
    { destruct (target_dir w); simpl; exact Hpre. }
    rewrite (bind_Ok _ _ _ _ _ Hpre'), (bind_Ok _ _ _ _ _ HE).
    apply bind_Raise. exact HM. }
  apply for_each_feature_Ok_inv in Hloop as (rows & rel' & Hrows & ->).
  pose proof (pass_rows_length _ _ _ _ _ _ _ _ _ _ _ Hrows) as Hlen.
  simpl in *.
  split; [exact Hrun|]. split; [exact Hrow|]. split; [reflexivity|].
  split; [rewrite length_app; lia|].
  split.
  { (* nothing was linked to the new row *)
    unfold containment. simpl.
    assert (locality_types w0 = locality_types w /\ localities w0 = localities w /\
            is_part_of w0 = is_part_of w) as (_ & Hl0 & Hr0).
    { destruct (target_dir w).
      - injection Hpre as <-. done.
      - apply unpack_data_Ok_inv in Hpre as [_ ->]. done. }
    apply migrate_Ok_inv in HE
      as (? & ? & ? & ? & rowsE & _ & _ & _ & _ & HrowsE & Hw1).
    assert (forall k, length (localities w1) < k -> is_part_of w1 !! k = None) as Hf1.
    { intros k Hk.
      apply (pass_rows_rel_fresh _ _ _ _ _ _ _ _ _ _ _ HrowsE).
      - rewrite Hl0, Hr0. exact Hcons.
      - rewrite Hw1 in Hk. simpl in Hk. rewrite length_app in Hk. lia. }
    rewrite (pass_rows_rel_fresh _ _ _ _ _ _ _ _ _ _ _ Hrows Hf1); [done|].
    rewrite Hpk, length_app. lia. }
  done.
Qed.

(** ** What no outcome undoes *)

Lemma grows_refl w : grows w w.
Proof.
  split; try done.
  - exists []. by rewrite app_nil_r.
  - exists []. split; [by rewrite app_nil_r | done].
  - exists []. by rewrite app_nil_r.
  - exists []. by rewrite app_nil_r.
Qed.

Lemma grows_trans w1 w2 w3 : grows w1 w2 -> grows w2 w3 -> grows w1 w3.
Proof.
  intros [[t1 Ht1] (r1 & Hr1 & Hpk1) Hl1 Hc1 Hd1 Hs1 Hf1 [m1 Hm1] [c1 Hq1]]
         [[t2 Ht2] (r2 & Hr2 & Hpk2) Hl2 Hc2 Hd2 Hs2 Hf2 [m2 Hm2] [c2 Hq2]].
  split.
  - exists (t1 ++ t2). by rewrite Ht2, Ht1, <- app_assoc.
  - exists (r1 ++ r2). split; [by rewrite Hr2, Hr1, <- app_assoc|].
    intros i row Hi.
    destruct (decide (i < length r1)) as [Hlt|Hge].
    + rewrite lookup_app_l in Hi by done. by apply Hpk1.
    + rewrite lookup_app_r in Hi by lia.
      rewrite (Hpk2 _ _ Hi), Hr1, length_app. lia.
  - intros k Hk. rewrite Hl2, Hl1; [done|done|].
    rewrite Hr1, length_app. lia.
  - auto.
  - by rewrite Hd2.
  - by rewrite Hs2.
  - intros Hsome. rewrite Hf2, Hf1; [done|done|]. by rewrite Hf1.
  - exists (m1 ++ m2). by rewrite Hm2, Hm1, <- app_assoc.
  - exists (c1 ++ c2). by rewrite Hq2, Hq1, <- app_assoc.
Qed.

(** Linking writes the containment set of the row it links and no other,
    also when it fails half-way. *)
Lemma create_locality_implications_rel self stores locs f row w r w' :
  create_locality_implications self stores locs f row w = (r, w') ->
  exists rel',
    w' = set_is_part_of rel' w /\
    forall k, k <> pk row -> rel' !! k = is_part_of w !! k.
Proof.
  assert (exists rel', w = set_is_part_of rel' w /\
            forall k, k <> pk row -> rel' !! k = is_part_of w !! k) as Hid.
  { exists (is_part_of w). split; [by rewrite set_is_part_of_id | done]. }
  assert (forall X, exists rel',
            set_is_part_of (<[pk row := X]> (is_part_of w)) w = set_is_part_of rel' w /\
            forall k, k <> pk row -> rel' !! k = is_part_of w !! k) as Hset.
  { intros X. eexists. split; [reflexivity|].
    intros k Hk. by rewrite lookup_insert_ne. }
  destruct self; simpl; rewrite !bind_unfold.
  - rewrite feature_get_eq. destruct (fields f !! "CVE_ENT");
      intros H; injection H as _ <-; apply Hid.
  - rewrite stores_getitem_eq.
    destruct stores as [d|]; [|intros H; injection H as _ <-; apply Hid].
    destruct (d !! "entities") as [entities|];
      [|intros H; injection H as _ <-; apply Hid].
    rewrite bind_unfold, feature_get_eq.
    destruct (fields f !! "CVE_ENT") as [code|];
      [|intros H; injection H as _ <-; apply Hid].
    rewrite bind_unfold.
    destruct (entities !! code) as [entity|];
      [|intros H; injection H as _ <-; apply Hid].
    rewrite or_raise_Some, bind_unfold, is_part_of_add_eq, bind_unfold, feature_get_eq.
    destruct (fields f !! "CVE_MUN");
      intros H; injection H as _ <-; apply Hset.
  - rewrite stores_getitem_eq.
    destruct stores as [d|]; [|intros H; injection H as _ <-; apply Hid].
    destruct (d !! "entities") as [entities|];
      [|intros H; injection H as _ <-; apply Hid].
    rewrite bind_unfold, feature_get_eq.
    destruct (fields f !! "CVE_ENT") as [code|];
      [|intros H; injection H as _ <-; apply Hid].
    rewrite bind_unfold.
    destruct (entities !! code) as [entity|];
      [|intros H; injection H as _ <-; apply Hid].
    rewrite or_raise_Some, bind_unfold, stores_getitem_eq.
    destruct (d !! "municipalities") as [municipalities|];
      [|intros H; injection H as _ <-; apply Hid].
    rewrite bind_unfold, feature_get_eq.
    destruct (fields f !! "CVE_MUN") as [mcode|];
      [|intros H; injection H as _ <-; apply Hid].
    rewrite bind_unfold.
    destruct (municipalities !! mcode) as [municipality|];
      [|intros H; injection H as _ <-; apply Hid].
    rewrite or_raise_Some, bind_unfold, is_part_of_add_eq.
    intros H; injection H as _ <-; apply Hset.
Qed.

Lemma create_locality_from_feature_grows self stores lt ct locs f w r w' :
  create_locality_from_feature self stores lt ct locs f w = (r, w') -> grows w w'.
Proof.
  rewrite create_locality_from_feature_unfold.
  destruct (fields f !! "NOMGEO") as [nm|];
    [|intros H; injection H as _ <-; apply grows_refl].
  destruct (normalise f ≫= reproject ct) as [g|];
    [|intros H; injection H as _ <-; apply grows_refl].
  destruct (get_feature_metadata self f w) as [[md|e] w1];
    [|intros H; injection H as _ <-; apply grows_refl].
  cbv zeta. intros (rel' & -> & Hrel)%create_locality_implications_rel.
  simpl in Hrel.
  split; simpl; try done.
  - exists []. by rewrite app_nil_r.
  - eexists. split; [reflexivity|].
    intros [|i] row Hi; simpl in Hi; [|done]. injection Hi as <-. simpl. lia.
  - intros k Hk. apply Hrel. lia.
  - intros Hcons k Hk. simpl in *. rewrite length_app in Hk. simpl in Hk.
    rewrite Hrel by lia. apply Hcons. lia.
  - exists []. by rewrite app_nil_r.
  - exists []. by rewrite app_nil_r.
Qed.

Lemma for_each_grows {A S} (body : S -> A -> M S) l :
  (forall s x w r w', body s x w = (r, w') -> grows w w') ->
  forall s w r w', for_each body s l w = (r, w') -> grows w w'.
Proof.
  intros Hbody. induction l as [|x l IH]; intros s w r w'; simpl.
  - intros H. injection H as _ <-. apply grows_refl.
  - rewrite bind_unfold. destruct (body s x w) as [[s1|e] w1] eqn:Hx.
    + intros H. eapply grows_trans; [eapply Hbody, Hx | eapply IH, H].
    + intros H. injection H as _ <-. eapply Hbody, Hx.
Qed.

Lemma set_log_grows w msgs : grows w (set_log (log w ++ msgs) w).
Proof.
  split; simpl; try done.
  - exists []. by rewrite app_nil_r.
  - exists []. split; [by rewrite app_nil_r | done].
  - by exists msgs.
  - exists []. by rewrite app_nil_r.
Qed.

Lemma set_schema_grows w cs p : grows w (set_schema (schema_required w ++ cs) p w).
Proof.
  split; simpl; try done.
  - exists []. by rewrite app_nil_r.
  - exists []. split; [by rewrite app_nil_r | done].
  - exists []. by rewrite app_nil_r.
  - by exists cs.
Qed.

Lemma set_locality_types_grows w types :
  grows w (set_locality_types (locality_types w ++ types) w).
Proof.
  split; simpl; try done.
  - by exists types.
  - exists []. split; [by rewrite app_nil_r | done].
  - exists []. by rewrite app_nil_r.
  - exists []. by rewrite app_nil_r.
Qed.

Lemma loop_entry_grows self lt w : grows w (loop_entry self lt w).
Proof.
  unfold loop_entry.
  set (w1 := set_log (log w ++ ["Migrating " +:+ name_of self]) w).
  pose proof (set_log_grows w ["Migrating " +:+ name_of self]) as H1.
  pose proof (set_schema_grows w1 (codes_of self)
                (declare (attributes self) (schema_properties w))) as H2.
  pose proof (set_locality_types_grows
                (set_schema (schema_required w1 ++ codes_of self)
                   (declare (attributes self) (schema_properties w)) w1) [lt]) as H3.
  exact (grows_trans _ _ _ H1 (grows_trans _ _ _ H2 H3)).
Qed.

Lemma migrate_grows self stores w r w' :
  migrate CoordTransform geometry_srid self stores w = (r, w') -> grows w w'.
Proof.
  rewrite migrate_unfold. cbv zeta.
  destruct (target_dir w ≫= _) as [layer|];
    [|intros H; injection H as _ <-; apply set_log_grows].
  destruct (srs layer) as [datum|].
  2:{ intros H; injection H as _ <-.
      exact (grows_trans _ _ _ (set_log_grows w _)
               (set_schema_grows (set_log _ w) (codes_of self)
                  (declare (attributes self) (schema_properties w)))). }
  destruct (spatial_ref_sys w !! geometry_srid) as [target_srs|];
    [|intros H; injection H as _ <-; apply loop_entry_grows].
  destruct (for_each _ _ _ _) as [[locs|e] w1] eqn:Hloop.
  - intros H; injection H as _ <-.
    eapply grows_trans; [apply loop_entry_grows|].
    eapply grows_trans; [|apply set_log_grows].
    eapply for_each_grows; [|exact Hloop].
    intros ? ? ? ? ?. apply create_locality_from_feature_grows.
  - intros H; injection H as _ <-.
    eapply grows_trans; [apply loop_entry_grows|].
    eapply for_each_grows; [|exact Hloop].
    intros ? ? ? ? ?. apply create_locality_from_feature_grows.
Qed.

Lemma extract_archive_eq basename w :
  (zfile ← ZipFile basename; extractall zfile) w =
  match data_dir w !! basename with
  | Some zfile =>
      (Ok tt, set_target_dir (Some (zfile ∪ default ∅ (target_dir w))) w)
  | None => (Raise (FileNotFoundError ("data/" +:+ basename)), w)
  end.
Proof.
  unfold ZipFile, extractall.
  rewrite bind_unfold, bind_unfold, get_world_eq.
  destruct (data_dir w !! basename); reflexivity.
Qed.

(** The archives are extracted in the order l, mun, ent; the first one that
    is missing stops the extraction. *)
Lemma unpack_data_unfold w :
  unpack_data w =
  let w0 := set_log (log w ++ ["Extracting zip file with geostatistical framework"]) w in
  match data_dir w !! "l.zip" with
  | None => (Raise (FileNotFoundError "data/l.zip"), w0)
  | Some l =>
      match data_dir w !! "mun.zip" with
      | None =>
          (Raise (FileNotFoundError "data/mun.zip"),
           set_target_dir (Some (l ∪ default ∅ (target_dir w))) w0)
      | Some mun =>
          match data_dir w !! "ent.zip" with
          | None =>
              (Raise (FileNotFoundError "data/ent.zip"),
               set_target_dir (Some (mun ∪ (l ∪ default ∅ (target_dir w)))) w0)
          | Some ent =>
              (Ok tt,
               set_log (log w ++ ["Extracting zip file with geostatistical framework";
                                  "Extraction done"])
                 (set_target_dir
                    (Some (ent ∪ (mun ∪ (l ∪ default ∅ (target_dir w))))) w))
          end
      end
  end.
Proof.
  unfold unpack_data. rewrite bind_unfold. unfold logging_info at 1.
  rewrite modify_eq, bind_unfold. cbn [for_each].
  rewrite bind_unfold, extract_archive_eq. cbn [data_dir set_log].
  destruct (data_dir w !! "l.zip") as [l|]; [|reflexivity].
  rewrite bind_unfold, extract_archive_eq. cbn [data_dir set_target_dir set_log].
  destruct (data_dir w !! "mun.zip") as [mun|]; [|reflexivity].
  rewrite bind_unfold, extract_archive_eq. cbn [data_dir set_target_dir set_log target_dir].
  destruct (data_dir w !! "ent.zip") as [ent|]; [|reflexivity].
  unfold logging_info, ret. rewrite modify_eq.
  unfold set_log, set_target_dir. simpl. rewrite <- app_assoc. reflexivity.
Qed.

(** Unpacking writes the extraction directory and the log, whatever its
    outcome. *)
Lemma unpack_data_frame w r w' :
  unpack_data w = (r, w') ->
  exists dir msgs, w' = set_log (log w ++ msgs) (set_target_dir dir w).
Proof.
  rewrite unpack_data_unfold. cbv zeta.
  destruct (data_dir w !! "l.zip") as [l|].
  2:{ intros H. injection H as _ <-. eexists (target_dir w), _.
      destruct w; reflexivity. }
  destruct (data_dir w !! "mun.zip") as [mun|].
  2:{ intros H. injection H as _ <-. eexists _, _. reflexivity. }
  destruct (data_dir w !! "ent.zip") as [ent|].
  2:{ intros H. injection H as _ <-. eexists _, _. reflexivity. }
  intros H. injection H as _ <-. eexists _, _. reflexivity.
Qed.

Lemma unpack_data_grows w r w' :
  target_dir w = None -> unpack_data w = (r, w') -> grows w w'.
Proof.
  intros Hnone (dir & msgs & ->)%unpack_data_frame.
  split; simpl; try done.
  - exists []. by rewrite app_nil_r.
  - exists []. split; [by rewrite app_nil_r | done].
  - rewrite Hnone. by intros [? ?].
  - by exists msgs.
  - exists []. by rewrite app_nil_r.
Qed.

Lemma migrate_geostatistical_framework_grows w r w' :
  migrate_geostatistical_framework CoordTransform geometry_srid w = (r, w') ->
  grows w w'.
Proof.
  unfold migrate_geostatistical_framework.
  rewrite bind_unfold, data_is_unpacked_eq, bind_unfold.
  assert (forall r0 w0,
            ((if negb (match target_dir w with Some _ => true | None => false end)
              then unpack_data else ret tt) : M unit) w = (r0, w0) -> grows w w0)
    as Hpre.
  { intros r0 w0. destruct (target_dir w) eqn:Hdir; simpl.
    - intros H. injection H as _ <-. apply grows_refl.
    - by apply unpack_data_grows. }
  destruct ((if negb _ then unpack_data else ret tt) w) as [[[]|e] w0] eqn:H0;
    [|intros H; injection H as _ <-; exact (Hpre _ _ eq_refl)].
  clear H0. pose proof (Hpre _ _ eq_refl) as H0. clear Hpre.
  rewrite bind_unfold.
  destruct (migrate _ _ EntityMigrator _ w0) as [[entities|e] w1] eqn:H1;
    apply migrate_grows in H1;
    [|intros H; injection H as _ <-; by eapply grows_trans].
  rewrite bind_unfold.
  destruct (migrate _ _ MunicipalityMigrator _ w1) as [[municipalities|e] w2] eqn:H2;
    apply migrate_grows in H2;
    [|intros H; injection H as _ <-; eauto using grows_trans].
  rewrite bind_unfold.
  destruct (migrate _ _ LocalityMigrator _ w2) as [[locs|e] w3] eqn:H3;
    apply migrate_grows in H3;
    intros H; injection H as _ <-; eauto using grows_trans.
Qed.


(** A database whose primary keys are the positions of the rows, and whose
    containment sets belong to existing rows, stays so through a migration,
    whatever its outcome; in particular no two rows share a primary key. *)
Theorem migration_keeps_keys_unique w r w' :
  keys_in_order w -> db_consistent w ->
  migrate_geostatistical_framework CoordTransform geometry_srid w = (r, w') ->
  keys_in_order w' /\ db_consistent w' /\ NoDup (pk <$> localities w').
Proof.
  intros Hkeys Hcons [_ (rows & Hr & Hpk) _ Hc _ _ _ _ _]%migrate_geostatistical_framework_grows.
  assert (keys_in_order w') as Hkeys'.
  { intros i row Hi. rewrite Hr in Hi.
    destruct (decide (i < length (localities w))) as [Hlt|Hge].
    - rewrite lookup_app_l in Hi by done. by apply Hkeys.
    - rewrite lookup_app_r in Hi by lia. rewrite (Hpk _ _ Hi). lia. }
  split; [exact Hkeys'|]. split; [by apply Hc|].
  apply NoDup_alt. intros i j k Hi Hj.
  apply list_lookup_fmap_Some in Hi as (ri & -> & Hi).
  apply list_lookup_fmap_Some in Hj as (rj & Hk & Hj).
  rewrite (Hkeys' _ _ Hi), (Hkeys' _ _ Hj) in Hk. lia.
Qed.


(** ** The archives *)



(** ** A pass that cannot start *)





(** ** The metadata of a feature *)





(** ** A feature that cannot be read *)


(** ** The top and the bottom of the hierarchy *)







(** ** What the schemas of a first run show *)

#[local] Instance JString_inj : Inj eq eq JString.
Proof. intros s1 s2 H. by injection H. Qed.



(** ** When the migration returns *)







End Properties.

(** * The properties on the sample inputs *)

Section OnSamples.

Import Samples Faulty.

(** C3 on [packed]: the row of Ensenada has the row of Baja California as
    its only parent. *)
Lemma municipality_parent_witness :
  exists row ents code entity,
    localities municipality_pass.2 !! (length (localities entity_pass.2) + 1) = Some row /\
    fields municipio_ensenada !! "NOMGEO" = Some (name row) /\
    municipality_stores ≫= (fun d => d !! "entities") = Some ents /\
    fields municipio_ensenada !! "CVE_ENT" = Some code /\
    ents !! code = Some entity /\
    containment municipality_pass.2 (pk row) = {[pk entity]} /\
    size (containment municipality_pass.2 (pk row)) = 1.
Proof.
  apply (municipality_has_its_entity_as_only_parent identity srid
           municipality_stores entity_pass.2 municipalities
           municipality_pass.2 (default ∅ (target_dir entity_pass.2)) municipality_layer
           1 municipio_ensenada).
  - intros k _. vm_compute. reflexivity.
  - vm_compute. reflexivity.
  - vm_compute. reflexivity.
  - vm_compute. reflexivity.
  - reflexivity.
Defined.

(** C10 on [packed]: both municipalities bear the code 001; the lookup holds
    the row of Ensenada under it and no longer the row of Aguascalientes. *)
Lemma municipality_lookup_witness :
  (exists row,
     localities municipality_pass.2 !! (length (localities entity_pass.2) + 1) = Some row /\
     fields municipio_ensenada !! "NOMGEO" = Some (name row) /\
     municipalities !! "001" = Some row) /\
  (forall row,
     localities municipality_pass.2 !! (length (localities entity_pass.2) + 0) = Some row ->
     municipalities !! "001" <> Some row).
Proof.
  destruct (municipality_lookup_keeps_last_row_per_code identity srid
              municipality_stores entity_pass.2 municipalities municipality_pass.2
              (default ∅ (target_dir entity_pass.2)) municipality_layer)
    as [Hlast Hover].
  - vm_compute. reflexivity.
  - vm_compute. reflexivity.
  - vm_compute. reflexivity.
  - split.
    + apply (Hlast 1 municipio_ensenada "001"); [reflexivity | vm_compute; reflexivity |].
      intros [|[|[|j]]] g Hj Hg; try lia; discriminate Hg.
    + intros row.
      apply (Hover 0 1 municipio_aguascalientes municipio_ensenada "001" row);
        [lia | reflexivity | reflexivity | vm_compute; reflexivity | vm_compute; reflexivity].
Defined.

(** C4 on [packed], whose layers declare Polygon: the square of Baja
    California is stored wrapped. *)
Lemma stored_geometry_witness :
  let step :=
    create_locality_from_feature EntityMigrator None
      (registered_type EntityMigrator "GEOGCS[ITRF92]" unpacked)
      (identity "GEOGCS[ITRF92]" "GEOGCS[WGS 84]") ∅ baja_california unpacked in
  exists row,
    localities step.2 = localities unpacked ++ [row] /\
    geometry row = MultiPolygon [[[(10, 10); (10, 11); (11, 11); (11, 10); (10, 10)]]].
Proof.
  cbv zeta.
  destruct (stored_geometry_follows_the_declared_type EntityMigrator None
              (registered_type EntityMigrator "GEOGCS[ITRF92]" unpacked)
              (identity "GEOGCS[ITRF92]" "GEOGCS[WGS 84]") ∅ baja_california unpacked
              _ _ eq_refl)
    as [(Hunread & _)|(_ & row & Hrows & _ & Hpoly & _)].
  - exfalso. apply Hunread. repeat split; eexists; vm_compute; reflexivity.
  - exists row. split; [exact Hrows|].
    destruct (Hpoly _ eq_refl) as (rings' & Hrings & ->).
    vm_compute in Hrings. injection Hrings as <-. reflexivity.
Defined.

(** C4 as the specification words it fails on a layer of polygons with
    heights.  The geometry of [colima25D] is a single polygon and its layer
    declares Polygon25D, which is not Polygon: the call returns and the one
    row it stores holds the bare polygon, not a multi-polygon. *)
Lemma polygon_of_a_25D_layer_is_stored_bare :
  exists rings row,
    geom colima25D = Polygon rings /\
    colima25D_step.1 = Ok ({[ "06" := row ]} : gmap string (@Locality point25D)) /\
    localities colima25D_step.2 = [row] /\
    geometry row = Polygon rings /\
    (forall polygons, geometry row <> MultiPolygon polygons).
Proof.
  eexists _, _. split; [reflexivity|].
  split; [vm_compute; reflexivity|].
  split; [vm_compute; reflexivity|].
  split; [reflexivity|]. intros polygons. discriminate.
Defined.

(** C7 on [packed]: two entity rows, then two municipality rows, then one
    locality row. *)
Lemma passes_in_sequence_witness :
  exists rowsE rowsM rowsL,
    localities first_run.2 = localities packed ++ rowsE ++ rowsM ++ rowsL /\
    length rowsE = 2 /\ length rowsM = 2 /\ length rowsL = 1.
Proof.
  destruct (passes_run_one_after_the_other identity srid packed first_run.2)
    as (dir & E & Mu & L & rowsE & rowsM & rowsL & ents & muns & unpacking
        & (Hdir & HE & HM & HL) & (Hrows & HnE & HnM & HnL & _) & _).
  - intros k _. reflexivity.
  - vm_compute. reflexivity.
  - exists rowsE, rowsM, rowsL. split; [exact Hrows|].
    assert (dir = default ∅ (target_dir first_run.2)) as -> by (by rewrite Hdir).
    vm_compute in HE, HM, HL.
    injection HE as <-. injection HM as <-. injection HL as <-.
    auto.
Defined.

(** C6 on [packed]: the second run leaves six type rows and ten rows. *)
Lemma rerun_witness :
  exists w2,
    migrate_geostatistical_framework identity srid first_run.2 = (Ok tt, w2) /\
    target_dir w2 = target_dir first_run.2 /\
    length (locality_types first_run.2) = 3 /\ length (localities first_run.2) = 5 /\
    length (locality_types w2) = 6 /\ length (localities w2) = 10.
Proof.
  destruct (rerun_extracts_nothing_and_doubles_rows identity srid packed first_run.2)
    as (_ & w2 & dir & E & Mu & L & types1 & rows1 & types2 & rows2
        & (Hdir & HE & HM & HL) & _ & Hrun2 & (Hdir2 & _) & _ & Htypes & Hrows).
  - vm_compute. reflexivity.
  - exists w2. split; [exact Hrun2|]. split; [exact Hdir2|].
    assert (dir = default ∅ (target_dir first_run.2)) as -> by (by rewrite Hdir).
    vm_compute in HE, HM, HL.
    injection HE as <-. injection HM as <-. injection HL as <-.
    split; [reflexivity|]. split; [reflexivity|].
    split; [exact Htypes | exact Hrows].
Defined.

(** C5 on [orphaned]: the run stops at La Paz, whose row is stored. *)
Lemma unknown_entity_witness :
  exists row,
    orphaned_run.1 = Raise (KeyError "03") /\
    localities orphaned_run.2 = localities orphaned_loop.2 ++ [row] /\
    fields municipio_sin_entidad !! "NOMGEO" = Some (name row) /\
    containment orphaned_run.2 (pk row) = ∅.
Proof.
  destruct (unknown_entity_aborts_after_storing_the_row identity srid
              orphaned orphaned_unpacked orphaned_entities orphaned_entity_pass.2
              (default ∅ (target_dir orphaned_entity_pass.2))
              (layer [municipio_aguascalientes; municipio_sin_entidad; municipio_ensenada])
              "GEOGCS[ITRF92]" "GEOGCS[WGS 84]"
              [municipio_aguascalientes] municipio_sin_entidad [municipio_ensenada]
              (value ∅ orphaned_loop.1) orphaned_loop.2 "03")
    as (row & w' & Hrun & (Hname & _) & Hrows & _ & Hcont & _).
  - intros k _. vm_compute. reflexivity.
  - vm_compute. reflexivity.
  - vm_compute. reflexivity.
  - vm_compute. reflexivity.
  - vm_compute. reflexivity.
  - reflexivity.
  - vm_compute. reflexivity.
  - reflexivity.
  - vm_compute. reflexivity.
  - repeat split; eexists; vm_compute; reflexivity.
  - vm_compute. reflexivity.
  - vm_compute. reflexivity.
  - exists row. unfold orphaned_run. rewrite Hrun. simpl. done.
Defined.

(** C5 as the specification has it fails on [orphaned]: the run stops with
    the key error at La Paz, the municipality whose entity 03 is missing, but
    the table holds a row for La Paz, the fourth one, stored before the lookup
    failed. *)
Lemma orphan_municipality_row_is_stored :
  orphaned_run.1 = Raise (KeyError "03") /\
  ~ (forall row, row ∈ localities orphaned_run.2 ->
       fields municipio_sin_entidad !! "NOMGEO" <> Some (name row)) /\
  exists row,
    localities orphaned_run.2 !! 3 = Some row /\
    fields municipio_sin_entidad !! "NOMGEO" = Some (name row) /\
    metadata row !! "CVE_ENT" = Some "03" /\
    length (localities orphaned_run.2) = 4.
Proof.
  split; [vm_compute; reflexivity|].
  assert (exists row,
    localities orphaned_run.2 !! 3 = Some row /\
    fields municipio_sin_entidad !! "NOMGEO" = Some (name row) /\
    metadata row !! "CVE_ENT" = Some "03" /\
    length (localities orphaned_run.2) = 4) as Hrow.
  { eexists. split; [vm_compute; reflexivity|].
    split; [vm_compute; reflexivity|]. split; vm_compute; reflexivity. }
  split; [|exact Hrow].
  destruct Hrow as (row & Hat & Hname & _).
  intros Hnone. apply (Hnone row); [|exact Hname].
  apply list_elem_of_lookup. eauto.
Qed.

(** C2 on [packed], where it fails.  The locality Aguascalientes, of entity
    01 and municipality 001, gets two parents: the entity 01 and the row the
    municipality lookup holds under 001.  That row is Ensenada, of entity 02,
    which took the place of the municipality Aguascalientes of entity 01
    because the lookup is keyed by CVE_MUN alone. *)
Theorem locality_linked_to_municipality_of_another_entity :
  first_run.1 = Ok tt /\
  exists locality entity municipality,
    localities first_run.2 !! 4 = Some locality /\
    localities first_run.2 !! 0 = Some entity /\
    localities first_run.2 !! 3 = Some municipality /\
    fields localidad_aguascalientes !! "NOMGEO" = Some (name locality) /\
    metadata locality !! "CVE_ENT" = Some "01" /\
    metadata locality !! "CVE_MUN" = Some "001" /\
    containment first_run.2 (pk locality) = {[pk entity; pk municipality]} /\
    metadata entity !! "CVE_ENT" = Some "01" /\
    metadata municipality !! "CVE_MUN" = Some "001" /\
    metadata municipality !! "CVE_ENT" = Some "02" /\
    name municipality = "Ensenada".
Proof.
  split; [vm_compute; reflexivity|].
  eexists _, _, _.
  split; [vm_compute; reflexivity|].
  split; [vm_compute; reflexivity|].
  split; [vm_compute; reflexivity|].
  repeat split; vm_compute; reflexivity.
Qed.

(** C1 on [packed], where it fails.  In the first run the [required] list of
    the municipality schema names CVEGEO and CVE_ENT twice and that of the
    locality schema names them three times; in a second run in the same
    process the entity schema declares CVE_MUN and CVE_LOC, which are no
    entity attributes. *)
Theorem schema_of_a_level_repeats_and_leaks_codes :
  (exists entidad municipio localidad,
     locality_types first_run.2 = [entidad; municipio; localidad] /\
     required_of (metadata_schema entidad) = JString <$> ["CVEGEO"; "CVE_ENT"] /\
     required_of (metadata_schema municipio) =
       JString <$> ["CVEGEO"; "CVE_ENT"; "CVEGEO"; "CVE_ENT"; "CVE_MUN"] /\
     required_of (metadata_schema localidad) =
       JString <$> ["CVEGEO"; "CVE_ENT"; "CVEGEO"; "CVE_ENT"; "CVE_MUN";
                    "CVEGEO"; "CVE_ENT"; "CVE_MUN"; "CVE_LOC"]) /\
  (exists entidad,
     locality_types second_run.2 !! 3 = Some entidad /\
     type_name entidad = "MARCO GEOESTADÍSTICO INTEGRADO, DICIEMBRE  2018 (Entidad)" /\
     dict_keys (properties_of (metadata_schema entidad)) =
       ["CVEGEO"; "CVE_ENT"; "CVE_MUN"; "CVE_LOC"] /\
     JString "CVE_LOC" ∈ required_of (metadata_schema entidad) /\
     "CVE_LOC" ∉ codes_of EntityMigrator).
Proof.
  split.
  - eexists _, _, _. split; [vm_compute; reflexivity|].
    repeat split; vm_compute; reflexivity.
  - eexists. split; [vm_compute; reflexivity|].
    split; [vm_compute; reflexivity|].
    split; [vm_compute; reflexivity|].
    split.
    + vm_compute. repeat constructor.
    + vm_compute. intros H. repeat (apply elem_of_cons in H as [H|H]; [discriminate H|]).
      by apply elem_of_nil in H.
Qed.

(** ** Further properties on the sample inputs *)


















End OnSamples.
